(** * Buildpacks lifecycle: build executor, run-image mirror selection and
      build environment, embedded from the Go sources.

    The three Go packages are kept apart as modules:
    - [lifecycle]: [buildpacktoml.go] (the per-buildpack build executor);
    - [platform]:  [BestRunImageMirrorFor] and [byRegistry];
    - [env]:       [NewBuildEnv], [isNotAllowlisted], [POSIXBuildEnv].

    Collaborators that the Go code reaches through the operating system or
    through other packages (the file system, the TOML codec, the child
    process, the [BuildEnv] interface, the registry client) are fields of a
    [World] record or Section variables: the executor is a function of
    what they answer, and it logs every call it makes to them. *)

From stdpp Require Import gmap strings list sorting.
From Stdlib Require Import ZArith Ascii DecimalString.
From Stdlib Require OrderedTypeEx.

Open Scope string_scope.
Open Scope list_scope.

(** ** Go strings *)

(** [strings.Contains s sub]. *)
Fixpoint strings_Contains (s sub : string) : bool :=
  if String.prefix sub s then true
  else match s with
       | EmptyString => false
       | String _ s' => strings_Contains s' sub
       end.

(** [filepath.Join]: the non-empty elements separated by a slash (the
    final [Clean] of the Go function is the identity on the paths used
    here and is left out). *)
Fixpoint filepath_Join (elems : list string) : string :=
  match elems with
  | [] => ""
  | e :: rest =>
      if decide (e = "") then filepath_Join rest
      else match filepath_Join rest with
           | EmptyString => e
           | tail => e +:+ "/" +:+ tail
           end
  end.

Arguments filepath_Join : simpl never.

(** [strings.SplitN(kv, "=", 2)]: [None] when [kv] has no equals sign
    (the Go call then returns a single part), else the text before and
    after the first one. *)
Fixpoint splitN2 (kv : string) : option (string * string) :=
  match kv with
  | EmptyString => None
  | String c rest =>
      if decide (c = "="%char) then Some ("", rest)
      else match splitN2 rest with
           | Some (k, v) => Some (String c k, v)
           | None => None
           end
  end.

Module lifecycle.

(** ** Data model *)

(** A value decoded from TOML into Go's [interface{}]. Strings, integers
    and booleans are kept as such; every other value (float, datetime,
    array, table) is carried with the text that [fmt]'s [%v] prints. *)
Inductive MetaValue :=
| MString (s : string)
| MInteger (z : Z)
| MBool (b : bool)
| MOther (shown : string).

#[global] Instance MetaValue_eq_dec : EqDecision MetaValue.
Proof. solve_decision. Defined.

(** [fmt.Sprintf("%v", v)]. *)
Definition Sprintf_v (v : MetaValue) : string :=
  match v with
  | MString s => s
  | MInteger z => NilZero.string_of_int (Z.to_int z)
  | MBool true => "true"
  | MBool false => "false"
  | MOther shown => shown
  end.

(** Modelled from the spec: the [api] package is not part of the sources.
    A buildpack API version is "semver-like, compared ordinally": a major
    and a minor number, compared lexicographically. [api.MustParse] of a
    descriptor's [api] string is the parsed version kept in the
    descriptor. *)
Record APIVersion := { Major : nat; Minor : nat }.

#[global] Instance APIVersion_eq_dec : EqDecision APIVersion.
Proof. solve_decision. Defined.

Definition api_Compare (v o : APIVersion) : Z :=
  if decide (Major v = Major o) then
    if decide (Minor v = Minor o) then 0
    else if decide (Minor v < Minor o) then -1 else 1
  else if decide (Major v < Major o) then -1 else 1.

Definition api_Equal (v o : APIVersion) : bool :=
  bool_decide (api_Compare v o = 0%Z).

Definition api_0_2 : APIVersion := {| Major := 0; Minor := 2 |}.
Definition api_0_5 : APIVersion := {| Major := 0; Minor := 5 |}.

(** [Require]: a plan entry, with its fields as the tests build them. *)
Record Require := {
  Require_Name : string;
  Require_Version : string;
  Require_Metadata : gmap string MetaValue;
}.

Record BuildpackPlan := { Entries : list Require }.

(** [Buildpack]: the buildpack a BOM entry is attributed to. *)
Record Buildpack := {
  Buildpack_ID : string;
  Buildpack_Version : string;
  Buildpack_API : string;
  Buildpack_Homepage : string;
}.

Record BOMEntry := {
  BOMEntry_Require : Require;
  BOMEntry_Buildpack : Buildpack;
}.

Record Unmet := { Unmet_Name : string }.

Record Label := { Label_Key : string; Label_Value : string }.

Record Process := {
  Process_Type : string;
  Process_Command : string;
  Process_Args : list string;
  Process_Direct : bool;
  Process_BuildpackID : string;
}.

Record Slice := { Slice_Paths : list string }.

Record BuildTOML := {
  BuildTOML_BOM : list BOMEntry;
  BuildTOML_Unmet : list Unmet;
}.

Record LaunchTOML := {
  LaunchTOML_BOM : list BOMEntry;
  LaunchTOML_Labels : list Label;
  LaunchTOML_Processes : list Process;
  LaunchTOML_Slices : list Slice;
}.

Record BuildpackInfo := {
  Info_ID : string;
  Info_Version : string;
  Info_Name : string;
  Info_ClearEnv : bool;
  Info_Homepage : string;
}.

Record DefaultBuildpackTOML := {
  API : APIVersion;
  Buildpack_ : BuildpackInfo;
  Path : string;
}.

Record BuildConfig := {
  AppDir : string;
  PlatformDir : string;
  LayersDir : string;
  PlanDir : string;
}.

Record BuildResult := {
  BOM : list BOMEntry;
  Labels : list Label;
  Met : list string;
  Processes : list Process;
  Slices : list Slice;
}.

(** ** Errors *)

Inductive ErrType := ErrTypeBuildpack.

(** Go's [error] values as [Build] can return them: an error handed back
    by a collaborator (os, toml, the [BuildEnv]) with its text, an error
    made by [errors.New] or [fmt.Errorf], or a [*lifecycle.Error] made by
    [NewLifecycleError] around a root error. *)
Inductive error :=
| ExternalError (msg : string)
| NewError (msg : string)
| LifecycleError (root : string) (ty : ErrType).

(** The errors that are not a [*lifecycle.Error]. *)
Definition plain (e : error) : Prop :=
  match e with
  | LifecycleError _ _ => False
  | _ => True
  end.

Definition NewLifecycleError (cause : string) (errType : ErrType) : error :=
  LifecycleError cause errType.

(** ** Collaborators *)

Inductive DecodeResult (A : Type) :=
| Decoded (a : A)
| DecodeNotExist (msg : string)
| DecodeError (msg : string).
Arguments Decoded {A} a.
Arguments DecodeNotExist {A} msg.
Arguments DecodeError {A} msg.

Record FileInfo := { FileInfo_Name : string; FileInfo_IsDir : bool }.

Inductive ReadDirResult :=
| DirEntries (files : list FileInfo)
| DirNotExist (msg : string)
| DirError (msg : string).

Record Cmd := {
  Cmd_Path : string;
  Cmd_Args : list string;
  Cmd_Dir : string;
  Cmd_Env : list string;
}.

Inductive EnvCall :=
| AddRootDir (path : string)
| AddEnvDir (path : string).

(** The calls [Build] makes to its collaborators, in the order made. *)
Inductive Event :=
| EvMkdirAll (path : string)
| EvWriteTOML (path : string) (plan : BuildpackPlan)
| EvRun (cmd : Cmd)
| EvEnv (call : EnvCall).

Definition not_run (ev : Event) : Prop :=
  match ev with
  | EvRun _ => False
  | _ => True
  end.

Definition is_env (ev : Event) : Prop :=
  match ev with
  | EvEnv _ => True
  | _ => False
  end.

(** What the collaborators answer. The file system is read after the
    child has run, so its fields describe the state the child left. The
    [BuildEnv] is stateful: its answer to an [AddRootDir] or [AddEnvDir]
    call may depend on the calls logged so far. *)
Record World := {
  EscapeID : string → string;
  MkdirAll : string → option string;
  WriteTOML : string → BuildpackPlan → option string;
  Env_List : list string;
  Env_WithPlatform : string → string + list string;
  Env_Add : list Event → EnvCall → option string;
  Cmd_Run : Cmd → option string;
  Listing : string → ReadDirResult;
  DecodeLayer : string → DecodeResult bool;
  DecodeLaunch : string → DecodeResult LaunchTOML;
  DecodeBuild : string → DecodeResult BuildTOML;
  DecodePlan : string → DecodeResult BuildpackPlan;
}.

Definition EnvBuildpackDir : string := "CNB_BUILDPACK_DIR".

(** The same world with another content of [build.toml], or of the
    [plan.toml] the child leaves. *)
Definition withDecodeBuild (w : World)
    (decode : string → DecodeResult BuildTOML) : World :=
  {| EscapeID := EscapeID w; MkdirAll := MkdirAll w;
     WriteTOML := WriteTOML w; Env_List := Env_List w;
     Env_WithPlatform := Env_WithPlatform w; Env_Add := Env_Add w;
     Cmd_Run := Cmd_Run w; Listing := Listing w;
     DecodeLayer := DecodeLayer w; DecodeLaunch := DecodeLaunch w;
     DecodeBuild := decode; DecodePlan := DecodePlan w |}.

Definition withDecodePlan (w : World)
    (decode : string → DecodeResult BuildpackPlan) : World :=
  {| EscapeID := EscapeID w; MkdirAll := MkdirAll w;
     WriteTOML := WriteTOML w; Env_List := Env_List w;
     Env_WithPlatform := Env_WithPlatform w; Env_Add := Env_Add w;
     Cmd_Run := Cmd_Run w; Listing := Listing w;
     DecodeLayer := DecodeLayer w; DecodeLaunch := DecodeLaunch w;
     DecodeBuild := DecodeBuild w; DecodePlan := decode |}.

(** ** The executor monad: a log of calls and a result or an error *)

Definition M (A : Type) : Type := list Event → (error + A) * list Event.

Definition ret {A} (a : A) : M A := λ log, (inr a, log).
Definition fail {A} (e : error) : M A := λ log, (inl e, log).
Definition bind {A B} (m : M A) (k : A → M B) : M B :=
  λ log, match m log with
         | (inl e, log') => (inl e, log')
         | (inr a, log') => k a log'
         end.
Definition emit (ev : Event) : M unit := λ log, (inr tt, log ++ [ev]).
Definition history : M (list Event) := λ log, (inr log, log).

(** A Go call returning only an [error]: [None] is [nil]. *)
Definition check (r : option string) : M unit :=
  match r with
  | None => ret tt
  | Some msg => fail (ExternalError msg)
  end.

Declare Scope exec_scope.
Delimit Scope exec_scope with exec.
Notation "x <- c1 ;; c2" := (bind c1 (λ x, c2))
  (at level 100, c1 at next level, right associativity) : exec_scope.
Notation "c1 ;;; c2" := (bind c1 (λ _, c2))
  (at level 100, right associativity) : exec_scope.
Open Scope exec_scope.

(** ** Plan model *)

(** Modelled from the spec: [Require.convertMetadataToVersion] is not part
    of the sources. "For each entry with [metadata.version] set but
    [version] empty, copy metadata-version into top-level version"; the
    metadata value is rendered as [validateBOM] renders it. *)
Definition convertMetadataToVersion (r : Require) : Require :=
  match Require_Metadata r !! "version" with
  | Some version =>
      if decide (Require_Version r = "") then
        {| Require_Name := Require_Name r;
           Require_Version := Sprintf_v version;
           Require_Metadata := Require_Metadata r |}
      else r
  | None => r
  end.

(** Modelled from the spec: [Buildpack.noAPI] and [Buildpack.noHomepage]
    are not part of the sources. The buildpack field of a BOM entry "omits
    the API and homepage fields": each helper clears its one field. *)
Definition noAPI (bp : Buildpack) : Buildpack :=
  {| Buildpack_ID := Buildpack_ID bp;
     Buildpack_Version := Buildpack_Version bp;
     Buildpack_API := "";
     Buildpack_Homepage := Buildpack_Homepage bp |}.

Definition noHomepage (bp : Buildpack) : Buildpack :=
  {| Buildpack_ID := Buildpack_ID bp;
     Buildpack_Version := Buildpack_Version bp;
     Buildpack_API := Buildpack_API bp;
     Buildpack_Homepage := "" |}.

Definition names (requires : list Require) : list string :=
  map Require_Name requires.

Fixpoint containsName (unmet : list Unmet) (name : string) : bool :=
  match unmet with
  | [] => false
  | u :: rest =>
      if decide (Unmet_Name u = name) then true else containsName rest name
  end.

Fixpoint filter_entries (entries : list Require) (unmet : list Unmet)
  : list Require :=
  match entries with
  | [] => []
  | entry :: rest =>
      if negb (containsName unmet (Require_Name entry))
      then entry :: filter_entries rest unmet
      else filter_entries rest unmet
  end.

(** [BuildpackPlan.filter]. *)
Definition filter (p : BuildpackPlan) (unmet : list Unmet) : BuildpackPlan :=
  {| Entries := filter_entries (Entries p) unmet |}.

Definition zeroBuildpack : Buildpack :=
  {| Buildpack_ID := ""; Buildpack_Version := "";
     Buildpack_API := ""; Buildpack_Homepage := "" |}.

Definition toBOM (p : BuildpackPlan) : list BOMEntry :=
  map (λ entry, {| BOMEntry_Require := entry;
                   BOMEntry_Buildpack := zeroBuildpack |}) (Entries p).

Definition withBuildpack (bp : Buildpack) (bom : list BOMEntry)
  : list BOMEntry :=
  map (λ entry, {| BOMEntry_Require := BOMEntry_Require entry;
                   BOMEntry_Buildpack := noHomepage (noAPI bp) |}) bom.

(** ** Validation *)

Definition version_mismatch_msg : string :=
  "top level version does not match metadata version".

Definition deprecated_version_msg (name : string) : string :=
  "bom entry '" +:+ name +:+ "' has a top level version which is deprecated".

(** The first loop of [validateBOM] (API below 0.5). *)
Fixpoint validateBOM_old (bom : list BOMEntry) : option error :=
  match bom with
  | [] => None
  | entry :: rest =>
      let r := BOMEntry_Require entry in
      match Require_Metadata r !! "version" with
      | Some version =>
          let metadataVersion := Sprintf_v version in
          if bool_decide (Require_Version r ≠ "")
             && bool_decide (Require_Version r ≠ metadataVersion)
          then Some (NewError version_mismatch_msg)
          else validateBOM_old rest
      | None => validateBOM_old rest
      end
  end.

(** The second loop of [validateBOM] (API 0.5 and above). *)
Fixpoint validateBOM_new (bom : list BOMEntry) : option error :=
  match bom with
  | [] => None
  | entry :: rest =>
      let r := BOMEntry_Require entry in
      if bool_decide (Require_Version r ≠ "")
      then Some (NewError (deprecated_version_msg (Require_Name r)))
      else validateBOM_new rest
  end.

Definition validateBOM (bom : list BOMEntry) (bpAPI : APIVersion)
  : option error :=
  if decide (api_Compare bpAPI api_0_5 < 0)%Z
  then validateBOM_old bom
  else validateBOM_new bom.

(** The inner loop of [validateUnmet]: is [name] requested? *)
Fixpoint found_in (entries : list Require) (name : string) : bool :=
  match entries with
  | [] => false
  | req :: rest =>
      if decide (name = Require_Name req) then true else found_in rest name
  end.

Fixpoint validateUnmet (unmet : list Unmet) (bpPlan : BuildpackPlan)
  : option error :=
  match unmet with
  | [] => None
  | u :: rest =>
      if decide (Unmet_Name u = "") then
        Some (NewError "unmet.name is required")
      else if negb (found_in (Entries bpPlan) (Unmet_Name u)) then
        Some (NewError ("unmet.name '" +:+ Unmet_Name u
                        +:+ "' must match a requested dependency"))
      else validateUnmet rest bpPlan
  end.

(** What the validations let through *)

(** An unmet entry that [validateUnmet] lets through. *)
Definition valid_unmet (plan : BuildpackPlan) (u : Unmet) : Prop :=
  Unmet_Name u ≠ "" ∧ Unmet_Name u ∈ names (Entries plan).

(** A BOM entry that [validateBOM] lets through for an API below 0.5:
    one without [metadata.version], or without a top-level version, or
    with the two equal as strings. *)
Definition versions_agree (entry : BOMEntry) : Prop :=
  ∀ version,
    Require_Metadata (BOMEntry_Require entry) !! "version" = Some version →
    Require_Version (BOMEntry_Require entry) = ""
    ∨ Require_Version (BOMEntry_Require entry) = Sprintf_v version.

(** ** Build executor *)

Section executor.
Variable w : World.

Definition preparePaths (bpID : string) (bpPlan : BuildpackPlan)
    (layersDir planDir : string) : M (string * string) :=
  let bpDirName := EscapeID w bpID in
  let bpLayersDir := filepath_Join [layersDir; bpDirName] in
  let bpPlanDir := filepath_Join [planDir; bpDirName] in
  emit (EvMkdirAll bpLayersDir) ;;;
  check (MkdirAll w bpLayersDir) ;;;
  emit (EvMkdirAll bpPlanDir) ;;;
  check (MkdirAll w bpPlanDir) ;;;
  let bpPlanPath := filepath_Join [bpPlanDir; "plan.toml"] in
  emit (EvWriteTOML bpPlanPath bpPlan) ;;;
  check (WriteTOML w bpPlanPath bpPlan) ;;;
  ret (bpLayersDir, bpPlanPath).

(** The command [runBuildCmd] builds, before its environment is set. *)
Definition buildCmd (b : DefaultBuildpackTOML)
    (bpLayersDir bpPlanPath : string) (config : BuildConfig)
    (env : list string) : Cmd :=
  {| Cmd_Path := filepath_Join [Path b; "bin"; "build"];
     Cmd_Args := [bpLayersDir; PlatformDir config; bpPlanPath];
     Cmd_Dir := AppDir config;
     Cmd_Env := env ++ [EnvBuildpackDir +:+ "=" +:+ Path b] |}.

Definition runBuildCmd (b : DefaultBuildpackTOML)
    (bpLayersDir bpPlanPath : string) (config : BuildConfig) : M unit :=
  env <- (if Info_ClearEnv (Buildpack_ b) then ret (Env_List w)
          else match Env_WithPlatform w (PlatformDir config) with
               | inl msg => fail (ExternalError msg)
               | inr env => ret env
               end) ;;
  let cmd := buildCmd b bpLayersDir bpPlanPath config env in
  emit (EvRun cmd) ;;;
  match Cmd_Run w cmd with
  | Some err => fail (NewLifecycleError err ErrTypeBuildpack)
  | None => ret tt
  end.

(** A method call on the [BuildEnv]: logged, then answered. *)
Definition env_call (c : EnvCall) : M unit :=
  log <- history ;;
  emit (EvEnv c) ;;;
  check (Env_Add w log c).

Definition isBuild (path : string) : bool :=
  match DecodeLayer w path with
  | Decoded build => build
  | _ => false
  end.

Definition name_le (a b : FileInfo) : Prop :=
  String.leb (FileInfo_Name a) (FileInfo_Name b) = true.

#[local] Instance name_le_dec : RelDecision name_le.
Proof. intros a b. unfold name_le. apply _. Defined.

(** [ioutil.ReadDir]: the entries of the directory "sorted by filename". *)
Definition ioutil_ReadDir (dir : string) : ReadDirResult :=
  match Listing w dir with
  | DirEntries files => DirEntries (merge_sort name_le files)
  | r => r
  end.

(** The loop of [eachDir]. *)
Fixpoint eachDir_loop (dir : string) (fn : string → M unit)
    (files : list FileInfo) : M unit :=
  match files with
  | [] => ret tt
  | f :: rest =>
      if negb (FileInfo_IsDir f) then eachDir_loop dir fn rest
      else fn (filepath_Join [dir; FileInfo_Name f]) ;;;
           eachDir_loop dir fn rest
  end.

Definition eachDir (dir : string) (fn : string → M unit) : M unit :=
  match ioutil_ReadDir dir with
  | DirNotExist _ => ret tt
  | DirError msg => fail (ExternalError msg)
  | DirEntries files => eachDir_loop dir fn files
  end.

Definition setupEnv (layersDir : string) : M unit :=
  eachDir layersDir (λ path,
    if negb (isBuild (path +:+ ".toml")) then ret tt
    else env_call (AddRootDir path)) ;;;
  eachDir layersDir (λ path,
    if negb (isBuild (path +:+ ".toml")) then ret tt
    else env_call (AddEnvDir (filepath_Join [path; "env"])) ;;;
         env_call (AddEnvDir (filepath_Join [path; "env.build"]))).

Definition emptyLaunchTOML : LaunchTOML :=
  {| LaunchTOML_BOM := []; LaunchTOML_Labels := [];
     LaunchTOML_Processes := []; LaunchTOML_Slices := [] |}.

Definition emptyBuildTOML : BuildTOML :=
  {| BuildTOML_BOM := []; BuildTOML_Unmet := [] |}.

(** [toml.DecodeFile] of an optional file: a file that does not exist
    leaves the zero value, any other failure is returned. *)
Definition decodeOptional {A} (r : DecodeResult A) (zero : A) : error + A :=
  match r with
  | Decoded a => inr a
  | DecodeNotExist _ => inr zero
  | DecodeError msg => inl (ExternalError msg)
  end.

(** [toml.DecodeFile] of a file that has to be there. *)
Definition decodeRequired {A} (r : DecodeResult A) : error + A :=
  match r with
  | Decoded a => inr a
  | DecodeNotExist msg => inl (ExternalError msg)
  | DecodeError msg => inl (ExternalError msg)
  end.

Definition lift {A} (r : error + A) : M A :=
  match r with
  | inl e => fail e
  | inr a => ret a
  end.

Definition stamp (bpID : string) (p : Process) : Process :=
  {| Process_Type := Process_Type p;
     Process_Command := Process_Command p;
     Process_Args := Process_Args p;
     Process_Direct := Process_Direct p;
     Process_BuildpackID := bpID |}.

Definition readOutputFiles (b : DefaultBuildpackTOML)
    (bpLayersDir bpPlanPath : string) (bpPlanIn : BuildpackPlan)
    : error + BuildResult :=
  let bpFromBpInfo :=
    {| Buildpack_ID := Info_ID (Buildpack_ b);
       Buildpack_Version := Info_Version (Buildpack_ b);
       Buildpack_API := ""; Buildpack_Homepage := "" |} in
  let launchPath := filepath_Join [bpLayersDir; "launch.toml"] in
  match decodeOptional (DecodeLaunch w launchPath) emptyLaunchTOML with
  | inl err => inl err
  | inr launchTOML =>
      let finish (bom : list BOMEntry) (met : list string) :=
        {| BOM := bom;
           Labels := LaunchTOML_Labels launchTOML;
           Met := met;
           Processes := map (stamp (Info_ID (Buildpack_ b)))
                            (LaunchTOML_Processes launchTOML);
           Slices := LaunchTOML_Slices launchTOML |} in
      if decide (api_Compare (API b) api_0_5 < 0)%Z then
        match decodeRequired (DecodePlan w bpPlanPath) with
        | inl err => inl err
        | inr bpPlanOut =>
            match validateBOM (toBOM bpPlanOut) (API b) with
            | Some err => inl err
            | None =>
                inr (finish (withBuildpack bpFromBpInfo (toBOM bpPlanOut))
                            (names (Entries bpPlanOut)))
            end
        end
      else
        let buildPath := filepath_Join [bpLayersDir; "build.toml"] in
        match decodeOptional (DecodeBuild w buildPath) emptyBuildTOML with
        | inl err => inl err
        | inr bpBuild =>
            match validateBOM (LaunchTOML_BOM launchTOML) (API b) with
            | Some err => inl err
            | None =>
                match validateBOM (BuildTOML_BOM bpBuild) (API b) with
                | Some err => inl err
                | None =>
                    match validateUnmet (BuildTOML_Unmet bpBuild) bpPlanIn
                    with
                    | Some err => inl err
                    | None =>
                        inr (finish
                               (withBuildpack bpFromBpInfo
                                  (LaunchTOML_BOM launchTOML))
                               (names (Entries
                                  (filter bpPlanIn
                                     (BuildTOML_Unmet bpBuild)))))
                    end
                end
            end
        end
  end.

(** The plan [Build] works with: for API 0.2 every entry goes through
    [convertMetadataToVersion] (in Go, in place in the caller's slice). *)
Definition adaptPlan (b : DefaultBuildpackTOML) (bpPlan : BuildpackPlan)
  : BuildpackPlan :=
  if api_Equal (API b) api_0_2
  then {| Entries := map convertMetadataToVersion (Entries bpPlan) |}
  else bpPlan.

Definition Build (b : DefaultBuildpackTOML) (bpPlan : BuildpackPlan)
    (config : BuildConfig) : M BuildResult :=
  let bpPlan := adaptPlan b bpPlan in
  paths <- preparePaths (Info_ID (Buildpack_ b)) bpPlan
                        (LayersDir config) (PlanDir config) ;;
  let bpLayersDir := fst paths in
  let bpPlanPath := snd paths in
  runBuildCmd b bpLayersDir bpPlanPath config ;;;
  setupEnv bpLayersDir ;;;
  lift (readOutputFiles b bpLayersDir bpPlanPath bpPlan).

(** [Build] up to the point where it reads what the buildpack wrote:
    the paths it prepared, once the child has exited with success and the
    environment has taken the build layers. *)
Definition upToOutputs (b : DefaultBuildpackTOML) (bpPlan : BuildpackPlan)
    (config : BuildConfig) : M (string * string) :=
  let bpPlan := adaptPlan b bpPlan in
  paths <- preparePaths (Info_ID (Buildpack_ b)) bpPlan
                        (LayersDir config) (PlanDir config) ;;
  runBuildCmd b (fst paths) (snd paths) config ;;;
  setupEnv (fst paths) ;;;
  ret paths.

(** The paths [preparePaths] hands on, and the output files read under
    them. *)
Definition bpLayersDirOf (b : DefaultBuildpackTOML) (config : BuildConfig)
  : string :=
  filepath_Join [LayersDir config; EscapeID w (Info_ID (Buildpack_ b))].

Definition bpPlanDirOf (b : DefaultBuildpackTOML) (config : BuildConfig)
  : string :=
  filepath_Join [PlanDir config; EscapeID w (Info_ID (Buildpack_ b))].

Definition bpPlanPathOf (b : DefaultBuildpackTOML) (config : BuildConfig)
  : string :=
  filepath_Join [bpPlanDirOf b config; "plan.toml"].

Definition launchTOMLOf (b : DefaultBuildpackTOML) (config : BuildConfig)
  : DecodeResult LaunchTOML :=
  DecodeLaunch w (filepath_Join [bpLayersDirOf b config; "launch.toml"]).

Definition buildTOMLOf (b : DefaultBuildpackTOML) (config : BuildConfig)
  : DecodeResult BuildTOML :=
  DecodeBuild w (filepath_Join [bpLayersDirOf b config; "build.toml"]).

Definition planTOMLOf (b : DefaultBuildpackTOML) (config : BuildConfig)
  : DecodeResult BuildpackPlan :=
  DecodePlan w (bpPlanPathOf b config).

(** The names the buildpack declares unmet in [build.toml]. *)
Definition unmetNames (b : DefaultBuildpackTOML) (config : BuildConfig)
  : list string :=
  match buildTOMLOf b config with
  | Decoded bpBuild => map Unmet_Name (BuildTOML_Unmet bpBuild)
  | _ => []
  end.

(** A sequence of [BuildEnv] calls, stopped by the first error. *)
Fixpoint runCalls (calls : list EnvCall) : M unit :=
  match calls with
  | [] => ret tt
  | c :: rest => env_call c ;;; runCalls rest
  end.

(** The entries of a listing that [setupEnv] acts on: the directories
    whose sibling [.toml] has [build = true]; and their paths. *)
Definition buildLayers (layersDir : string) (files : list FileInfo)
  : list FileInfo :=
  List.filter
    (λ f, FileInfo_IsDir f
          && isBuild (filepath_Join [layersDir; FileInfo_Name f] +:+ ".toml"))
    files.

Definition buildDirs (layersDir : string) (files : list FileInfo)
  : list string :=
  map (λ f, filepath_Join [layersDir; FileInfo_Name f])
      (buildLayers layersDir files).

Definition envDirCalls (path : string) : list EnvCall :=
  [AddEnvDir (filepath_Join [path; "env"]);
   AddEnvDir (filepath_Join [path; "env.build"])].

(** [setupEnv] as the specification words it: one pass over the layer
    directories, making the three calls for each directory in turn. *)
Definition setupEnv_as_specified (layersDir : string) : M unit :=
  eachDir layersDir (λ path,
    if negb (isBuild (path +:+ ".toml")) then ret tt
    else env_call (AddRootDir path) ;;;
         env_call (AddEnvDir (filepath_Join [path; "env"])) ;;;
         env_call (AddEnvDir (filepath_Join [path; "env.build"]))).

End executor.

End lifecycle.

Module platform.

(** [files.RunImageForExport], with the fields the selection reads. *)
Record RunImageForExport := {
  Image : string;
  Mirrors : list string;
}.

(** The two results of [BestRunImageMirrorFor]: a reference and [nil], or
    the empty string and an error with its message. *)
Inductive Selection :=
| Selected (image : string)
| Failed (msg : string).

Section selection.
(** [authn.Keychain], and [auth.DefaultKeychain] over the candidates. *)
Context {Keychain : Type}.
Variable DefaultKeychain : list string → string + Keychain.
(** [name.ParseReference(image, name.WeakValidation)] followed by
    [ref.Context().RegistryStr()]; [None] when the reference does not
    parse. *)
Variable RegistryStr : string → option string.

(** [CheckReadAccess]: the probe, of which only the boolean is read. *)
Definition CheckReadAccess : Type := string → Keychain → bool.

Fixpoint byRegistry (reg : string) (images : list string)
    (checkReadAccess : CheckReadAccess) (keychain : Keychain) : string :=
  match images with
  | [] => ""
  | image :: rest =>
      match RegistryStr image with
      | None => byRegistry reg rest checkReadAccess keychain
      | Some r =>
          if decide (reg = r) then
            if checkReadAccess image keychain then image
            else byRegistry reg rest checkReadAccess keychain
          else byRegistry reg rest checkReadAccess keychain
      end
  end.

(** The last loop of [BestRunImageMirrorFor]. *)
Fixpoint firstAccessible (images : list string)
    (checkReadAccess : CheckReadAccess) (keychain : Keychain) : Selection :=
  match images with
  | [] => Failed "failed to find accessible run image"
  | image :: rest =>
      if checkReadAccess image keychain then Selected image
      else firstAccessible rest checkReadAccess keychain
  end.

Definition BestRunImageMirrorFor (targetRegistry : string)
    (runImageMD : RunImageForExport) (checkReadAccess : CheckReadAccess)
    : Selection :=
  if decide (Image runImageMD = "") then Failed "missing run image metadata"
  else
    let runImageMirrors := [Image runImageMD] ++ Mirrors runImageMD in
    match DefaultKeychain runImageMirrors with
    | inl err => Failed ("unable to create keychain: " +:+ err)
    | inr keychain =>
        let runImageRef :=
          byRegistry targetRegistry runImageMirrors checkReadAccess keychain in
        if decide (runImageRef ≠ "") then Selected runImageRef
        else firstAccessible runImageMirrors checkReadAccess keychain
    end.

(** The selection as the specification words it: the first candidate on
    the target registry, otherwise the first candidate the probe accepts,
    otherwise the failure. *)
Definition selection_as_specified (targetRegistry : string)
    (candidates : list string) (checkReadAccess : CheckReadAccess)
    (keychain : Keychain) : Selection :=
  match List.find (λ c, bool_decide (RegistryStr c = Some targetRegistry))
                  candidates with
  | Some c => Selected c
  | None =>
      match List.find (λ c, checkReadAccess c keychain) candidates with
      | Some c => Selected c
      | None => Failed "failed to find accessible run image"
      end
  end.

(** The candidates on a registry that the probe accepts. *)
Definition onRegistry (checkReadAccess : CheckReadAccess)
    (keychain : Keychain) (reg : string) (image : string) : bool :=
  bool_decide (RegistryStr image = Some reg)
  && checkReadAccess image keychain.

End selection.

(** [LifecycleInputs], with the fields [GetRunImageForExport] reads. *)
Record LifecycleInputs := {
  PlatformAPI : lifecycle.APIVersion;
  StackPath : string;
  RunPath : string;
  RunImageRef : string;
  LayersDir : string;
}.

Definition api_0_12 : lifecycle.APIVersion :=
  {| lifecycle.Major := 0; lifecycle.Minor := 12 |}.

Definition zeroRunImage : RunImageForExport :=
  {| Image := ""; Mirrors := [] |}.

Section export.
(** [BuildMetadata.Extensions] holds extensions, of which only the number
    is read. *)
Context {Extension : Type}.
(** [iname.ParseMaybe]. *)
Variable ParseMaybe : string → string.
(** [files.ReadStack] (the [RunImage] of the stack metadata),
    [files.ReadRun] (the [Images] of the run metadata) and
    [files.DecodeBuildMetadata] (the [Extensions] of the build metadata),
    each with its error. *)
Variable ReadStack : string → string + RunImageForExport.
Variable ReadRun : string → string + list RunImageForExport.
Variable DecodeBuildMetadata :
  string → lifecycle.APIVersion → string + list Extension.
Variable GetMetadataFilePath : string → string.

(** A run image that is, or of which a mirror is, the input reference. *)
Definition offers (inputRef : string) (runImage : RunImageForExport)
  : Prop :=
  ParseMaybe (Image runImage) = inputRef
  ∨ ∃ mirror, mirror ∈ Mirrors runImage ∧ ParseMaybe mirror = inputRef.

(** The inner loop of [GetRunImageForExport]: is one of the mirrors the
    input reference? *)
Fixpoint mirrorIs (mirrors : list string) (inputRef : string) : bool :=
  match mirrors with
  | [] => false
  | mirror :: rest =>
      if decide (ParseMaybe mirror = inputRef) then true
      else mirrorIs rest inputRef
  end.

(** The outer loop of [GetRunImageForExport]. *)
Fixpoint runImageFor (images : list RunImageForExport) (inputRef : string)
  : option RunImageForExport :=
  match images with
  | [] => None
  | runImage :: rest =>
      if decide (ParseMaybe (Image runImage) = inputRef) then Some runImage
      else if mirrorIs (Mirrors runImage) inputRef then Some runImage
      else runImageFor rest inputRef
  end.

Definition GetRunImageForExport (inputs : LifecycleInputs)
  : string + RunImageForExport :=
  if decide (lifecycle.api_Compare (PlatformAPI inputs) api_0_12 < 0)%Z then
    match ReadStack (StackPath inputs) with
    | inl err => inl err
    | inr runImage => inr runImage
    end
  else
    match ReadRun (RunPath inputs) with
    | inl err => inl err
    | inr images =>
        if decide (length images = 0) then inr zeroRunImage
        else
          let inputRef := ParseMaybe (RunImageRef inputs) in
          match runImageFor images inputRef with
          | Some runImage => inr runImage
          | None =>
              match DecodeBuildMetadata
                      (GetMetadataFilePath (LayersDir inputs))
                      (PlatformAPI inputs) with
              | inl err => inl err
              | inr extensions =>
                  if decide (0 < length extensions) then
                    inr {| Image := RunImageRef inputs; Mirrors := [] |}
                  else
                    match images with
                    | first :: _ => inr first
                    | [] => inr zeroRunImage
                    end
              end
          end
    end.

End export.

End platform.

Module env.

Definition BuildEnvAllowlist : list string :=
  ["CNB_STACK_ID"; "HOSTNAME"; "HOME"].

Definition POSIXBuildEnv : gmap string (list string) :=
  list_to_map [
    ("bin", ["PATH"]);
    ("lib", ["LD_LIBRARY_PATH"; "LIBRARY_PATH"]);
    ("include", ["CPATH"]);
    ("pkgconfig", ["PKG_CONFIG_PATH"])
  ].

Record Env := {
  RootDirMap : gmap string (list string);
  Vars : gmap string string;
}.

(** The inner loops of [isNotAllowlisted]: is [k] one of [wks]? *)
Fixpoint listed (wks : list string) (k : string) : bool :=
  match wks with
  | [] => false
  | wk :: rest => if decide (wk = k) then true else listed rest k
  end.

(** The loop of [isNotAllowlisted] over the root-dir map; Go ranges over
    the map in an unspecified order, here the order of [map_to_list]. *)
Fixpoint listed_in_any (dirs : list (string * list string)) (k : string)
  : bool :=
  match dirs with
  | [] => false
  | (_, wks) :: rest => if listed wks k then true else listed_in_any rest k
  end.

Definition isNotAllowlisted (k : string) : bool :=
  if listed BuildEnvAllowlist k then false
  else if listed_in_any (map_to_list POSIXBuildEnv) k then false
  else true.

(** Modelled from the spec: [varsFromEnviron] is not part of the sources.
    From its use in [NewBuildEnv]: every [KEY=VALUE] entry of the caller's
    environment whose key is not removed by [removeKey] is set in the
    variables, a later entry for a key replacing an earlier one; an entry
    without an equals sign is skipped. *)
Definition varsFromEnviron (environ : list string)
    (removeKey : string → bool) : gmap string string :=
  fold_left (λ vars kv,
               match splitN2 kv with
               | Some (k, v) => if removeKey k then vars else <[k := v]> vars
               | None => vars
               end)
            environ ∅.

Definition NewBuildEnv (environ : list string) : Env :=
  {| RootDirMap := POSIXBuildEnv;
     Vars := varsFromEnviron environ isNotAllowlisted |}.

(** The value the caller's environment gives a variable: that of the last
    [KEY=VALUE] entry for it. *)
Fixpoint Getenv (environ : list string) (key : string) : option string :=
  match environ with
  | [] => None
  | kv :: rest =>
      match Getenv rest key with
      | Some v => Some v
      | None =>
          match splitN2 kv with
          | Some (k, v) => if decide (k = key) then Some v else None
          | None => None
          end
      end
  end.

(** The variable names the claim lists. *)
Definition allowed_names : list string :=
  ["CNB_STACK_ID"; "HOSTNAME"; "HOME";
   "PATH"; "LD_LIBRARY_PATH"; "LIBRARY_PATH"; "CPATH"; "PKG_CONFIG_PATH"].

End env.

Module image.

(** [remote.ImageOption], of which the handler makes one kind. *)
Inductive ImageOption :=
| WithRegistrySetting (registry : string) (insecure : bool).

(** The loop of [GetInsecureOptions]; [strings.HasPrefix imageRef reg] is
    [String.prefix reg imageRef]. *)
Fixpoint insecureOptions (insecureRegistries : list string)
    (imageRef : string) : list ImageOption :=
  match insecureRegistries with
  | [] => []
  | insecureRegistry :: rest =>
      if String.prefix insecureRegistry imageRef
      then WithRegistrySetting insecureRegistry true
           :: insecureOptions rest imageRef
      else insecureOptions rest imageRef
  end.

Definition GetInsecureOptions (insecureRegistries : list string)
    (imageRef : string) : list ImageOption :=
  if decide (0 < length insecureRegistries)
  then insecureOptions insecureRegistries imageRef
  else [].

Section handler.
Context {Keychain : Type}.
(** [remote.NewImage(imageRef, keychain, opts...)] followed by
    [img.CheckReadAccess()], respectively [img.CheckReadWriteAccess()]:
    the boolean they return. *)
Variable CheckReadAccess : string → Keychain → list ImageOption → bool.
Variable CheckReadWriteAccess :
  string → Keychain → list ImageOption → bool.

Record DefaultRegistryHandler := {
  keychain : Keychain;
  insecureRegistry : list string;
}.

Definition NewRegistryHandler (keychain : Keychain)
    (insecureRegistries : list string) : DefaultRegistryHandler :=
  {| keychain := keychain; insecureRegistry := insecureRegistries |}.

(** The error of [verifyReadAccess], [None] for [nil]. *)
Definition verifyReadAccess (imageRef : string) (keychain : Keychain)
    (opts : list ImageOption) : option string :=
  if decide (imageRef = "") then None
  else if negb (CheckReadAccess imageRef keychain opts)
       then Some ("ensure registry read access to " +:+ imageRef)
       else None.

Definition verifyReadWriteAccess (imageRef : string) (keychain : Keychain)
    (opts : list ImageOption) : option string :=
  if decide (imageRef = "") then None
  else if negb (CheckReadWriteAccess imageRef keychain opts)
       then Some ("ensure registry read/write access to " +:+ imageRef)
       else None.

(** A reference that [EnsureReadAccess], respectively
    [EnsureWriteAccess], passes: the empty one, or one the probe accepts
    with the insecure options of the handler for it. *)
Definition readable (rv : DefaultRegistryHandler) (imageRef : string)
  : Prop :=
  imageRef = ""
  ∨ CheckReadAccess imageRef (keychain rv)
      (GetInsecureOptions (insecureRegistry rv) imageRef) = true.

Definition writable (rv : DefaultRegistryHandler) (imageRef : string)
  : Prop :=
  imageRef = ""
  ∨ CheckReadWriteAccess imageRef (keychain rv)
      (GetInsecureOptions (insecureRegistry rv) imageRef) = true.

Fixpoint EnsureReadAccess (rv : DefaultRegistryHandler)
    (imageRefs : list string) : option string :=
  match imageRefs with
  | [] => None
  | imageRef :: rest =>
      match verifyReadAccess imageRef (keychain rv)
              (GetInsecureOptions (insecureRegistry rv) imageRef) with
      | Some err => Some err
      | None => EnsureReadAccess rv rest
      end
  end.

Fixpoint EnsureWriteAccess (rv : DefaultRegistryHandler)
    (imageRefs : list string) : option string :=
  match imageRefs with
  | [] => None
  | imageRef :: rest =>
      match verifyReadWriteAccess imageRef (keychain rv)
              (GetInsecureOptions (insecureRegistry rv) imageRef) with
      | Some err => Some err
      | None => EnsureWriteAccess rv rest
      end
  end.

End handler.

End image.

Module rebase.

(** The exit codes of the [cmd] package that the rebase command names. *)
Inductive ExitCode := CodeInvalidArgs | CodeRebaseError.

(** [cmd.FailErrCode(err, code, action)]: the failure, kept with the
    arguments of the call. *)
Record ErrorFail := {
  Fail_Err : string;
  Fail_Code : ExitCode;
  Fail_Action : string;
}.

Definition FailErrCode (err : string) (code : ExitCode) (action : string)
  : ErrorFail :=
  {| Fail_Err := err; Fail_Code := code; Fail_Action := action |}.

(** [rebaseCmd], its flags; the docker client and the keychain it sets
    later are left out. *)
Record rebaseCmd := {
  imageNames : list string;
  reportPath : string;
  runImageRef : string;
  deprecatedRunImageRef : string;
  platformAPI : string;
  useDaemon : bool;
  uid : Z;
  gid : Z;
}.

Section args.
(** [image.ValidateDestinationTags], [cmd.PlaceholderReportPath] and
    [cmd.DefaultReportPath]. *)
Variable ValidateDestinationTags : bool → list string → option string.
Variable PlaceholderReportPath : string.
Variable DefaultReportPath : string → string → string.

Definition setImageNames (r : rebaseCmd) (names : list string) : rebaseCmd :=
  {| imageNames := names; reportPath := reportPath r;
     runImageRef := runImageRef r;
     deprecatedRunImageRef := deprecatedRunImageRef r;
     platformAPI := platformAPI r; useDaemon := useDaemon r;
     uid := uid r; gid := gid r |}.

Definition setRunImageRef (r : rebaseCmd) (ref : string) : rebaseCmd :=
  {| imageNames := imageNames r; reportPath := reportPath r;
     runImageRef := ref;
     deprecatedRunImageRef := deprecatedRunImageRef r;
     platformAPI := platformAPI r; useDaemon := useDaemon r;
     uid := uid r; gid := gid r |}.

Definition setReportPath (r : rebaseCmd) (path : string) : rebaseCmd :=
  {| imageNames := imageNames r; reportPath := path;
     runImageRef := runImageRef r;
     deprecatedRunImageRef := deprecatedRunImageRef r;
     platformAPI := platformAPI r; useDaemon := useDaemon r;
     uid := uid r; gid := gid r |}.

(** [rebaseCmd.Args]: the error it returns ([None] for [nil]) and the
    command as it leaves it. *)
Definition Args (r : rebaseCmd) (nargs : Z) (args : list string)
  : option ErrorFail * rebaseCmd :=
  if decide (nargs = 0)%Z then
    (Some (FailErrCode "at least one image argument is required"
             CodeInvalidArgs "parse arguments"), r)
  else
    let r := setImageNames r args in
    match ValidateDestinationTags (useDaemon r) (imageNames r) with
    | Some err =>
        (Some (FailErrCode err CodeInvalidArgs "validate image tag(s)"), r)
    | None =>
        if bool_decide (deprecatedRunImageRef r ≠ "")
           && bool_decide (runImageRef r ≠ "") then
          (Some (FailErrCode
                   "supply only one of -run-image or (deprecated) -image"
                   CodeInvalidArgs "parse arguments"), r)
        else
          let r := if decide (deprecatedRunImageRef r ≠ "")
                   then setRunImageRef r (deprecatedRunImageRef r) else r in
          let r := if decide (reportPath r = PlaceholderReportPath)
                   then setReportPath r
                          (DefaultReportPath (platformAPI r) "")
                   else r in
          (None, r)
    end.

End args.

End rebase.

(** ** Scenarios of the test suite, as worlds *)

Module scenarios.
Import lifecycle.

(** A world in which every directory and file operation succeeds and the
    [BuildEnv] accepts every call; what the child does is given by its
    exit, the layer directories it leaves and the files it writes. *)
Definition world (run : option string) (layers : list FileInfo)
    (buildLayers : list string) (launch : DecodeResult LaunchTOML)
    (build : DecodeResult BuildTOML) (planOut : DecodeResult BuildpackPlan)
    : World :=
  {| EscapeID := λ id, id;
     MkdirAll := λ _, None;
     WriteTOML := λ _ _, None;
     Env_List := ["TEST_ENV=cleared"];
     Env_WithPlatform := λ _, inr ["TEST_ENV=Av1"];
     Env_Add := λ _ _, None;
     Cmd_Run := λ _, run;
     Listing := λ _, DirEntries layers;
     DecodeLayer := λ path, if bool_decide (path ∈ buildLayers)
                            then Decoded true
                            else DecodeNotExist "no such file";
     DecodeLaunch := λ _, launch;
     DecodeBuild := λ _, build;
     DecodePlan := λ _, planOut |}.

Definition bpTOML (api : APIVersion) : DefaultBuildpackTOML :=
  {| API := api;
     Buildpack_ := {| Info_ID := "A"; Info_Version := "v1";
                      Info_Name := "Buildpack A"; Info_ClearEnv := false;
                      Info_Homepage := "Buildpack A Homepage" |};
     Path := "testdata/by-id/A/v1" |}.

Definition config : BuildConfig :=
  {| AppDir := "launch/app"; PlatformDir := "platform";
     LayersDir := "launch"; PlanDir := "launch/app" |}.

Definition require (name version : string)
    (metadata : gmap string MetaValue) : Require :=
  {| Require_Name := name; Require_Version := version;
     Require_Metadata := metadata |}.

Definition bom (name version : string) (metadata : gmap string MetaValue)
  : BOMEntry :=
  {| BOMEntry_Require := require name version metadata;
     BOMEntry_Buildpack := zeroBuildpack |}.

Definition noFile {A} : DecodeResult A := DecodeNotExist "no such file".

(** Three layer directories, listed out of order; [layer1] and [layer3]
    have [build = true]. *)
Definition layers : list FileInfo :=
  [ {| FileInfo_Name := "layer3"; FileInfo_IsDir := true |};
    {| FileInfo_Name := "layer1.toml"; FileInfo_IsDir := false |};
    {| FileInfo_Name := "layer2"; FileInfo_IsDir := true |};
    {| FileInfo_Name := "layer1"; FileInfo_IsDir := true |};
    {| FileInfo_Name := "layer3.toml"; FileInfo_IsDir := false |} ].

Definition buildLayers : list string :=
  ["launch/A/layer1.toml"; "launch/A/layer3.toml"].

Definition layersWorld : World :=
  world None layers buildLayers noFile noFile noFile.

(** "should get bom entries from launch.toml and unmet requires from
    build.toml" *)
Definition unmetPlan : BuildpackPlan :=
  {| Entries := [ require "some-dep" "" {[ "version" := MString "v1" ]};
                  require "some-unmet-dep" "" ∅ ] |}.

Definition unmetWorld : World :=
  world None [] []
    (Decoded {| LaunchTOML_BOM :=
                  [bom "some-dep" "" {[ "version" := MString "v1" ]}];
                LaunchTOML_Labels := [];
                LaunchTOML_Processes := [];
                LaunchTOML_Slices := [] |})
    (Decoded {| BuildTOML_BOM := [];
                BuildTOML_Unmet := [ {| Unmet_Name := "some-unmet-dep" |} ] |})
    noFile.

(** "should error when the launch bom has a top level version" *)
Definition versionedEntry : BOMEntry := bom "some-dep" "some-version" ∅.

Definition versionedLaunch : LaunchTOML :=
  {| LaunchTOML_BOM := [versionedEntry]; LaunchTOML_Labels := [];
     LaunchTOML_Processes := []; LaunchTOML_Slices := [] |}.

Definition versionedWorld : World :=
  world None [] [] (Decoded versionedLaunch) noFile noFile.

(** "invalid unmet entries": a name that no plan entry has. *)
Definition unknownUnmet : BuildTOML :=
  {| BuildTOML_BOM := [];
     BuildTOML_Unmet := [ {| Unmet_Name := "unknown-dep" |} ] |}.

Definition unknownUnmetWorld : World :=
  world None [] [] noFile (Decoded unknownUnmet) noFile.

(** "should error when top level version and metadata version are both
    present and do not match" *)
Definition mismatchEntry : Require :=
  require "dep1" "v2" {[ "version" := MString "v1" ]}.

Definition mismatchWorld : World :=
  world None [] [] noFile noFile (Decoded {| Entries := [mismatchEntry] |}).

(** "should convert metadata version to top level version in the
    buildpack plan" *)
Definition metadataPlan : BuildpackPlan :=
  {| Entries := [ require "some-dep" "" {[ "version" := MString "v1" ]} ] |}.

Definition echoWorld : World :=
  world None [] [] noFile noFile (Decoded metadataPlan).

(** "should include processes" *)
Definition processLaunch : LaunchTOML :=
  {| LaunchTOML_BOM := []; LaunchTOML_Labels := [];
     LaunchTOML_Processes :=
       [ {| Process_Type := "some-type"; Process_Command := "some-cmd";
            Process_Args := []; Process_Direct := false;
            Process_BuildpackID := "" |};
         {| Process_Type := "other-type"; Process_Command := "other-cmd";
            Process_Args := []; Process_Direct := false;
            Process_BuildpackID := "" |} ];
     LaunchTOML_Slices := [] |}.

Definition processWorld : World :=
  world None [] [] (Decoded processLaunch) noFile noFile.

(** "should error when the env cannot be found" *)
Definition noPlatformWorld : World :=
  {| EscapeID := λ id, id;
     MkdirAll := λ _, None;
     WriteTOML := λ _ _, None;
     Env_List := [];
     Env_WithPlatform := λ _, inl "some error";
     Env_Add := λ _ _, None;
     Cmd_Run := λ _, None;
     Listing := λ _, DirEntries [];
     DecodeLayer := λ _, noFile;
     DecodeLaunch := λ _, noFile;
     DecodeBuild := λ _, noFile;
     DecodePlan := λ _, noFile |}.

(** "should error when the command fails" *)
Definition failingWorld : World :=
  world (Some "exit status 1") [] [] noFile noFile noFile.

(** Rebase mirror selection: a registry client that reads the registry
    off a reference as the text before its first slash, a keychain that
    is always there. *)
Fixpoint registryOf (image : string) : option string :=
  match image with
  | EmptyString => None
  | String c rest =>
      if decide (c = "/"%char) then Some ""
      else match registryOf rest with
           | Some reg => Some (String c reg)
           | None => None
           end
  end.

Definition anyKeychain (images : list string) : string + unit := inr tt.

Definition runImage : platform.RunImageForExport :=
  {| platform.Image := "other.example/run";
     platform.Mirrors := ["r.example/run"] |}.

Definition readable (images : list string) : string → unit → bool :=
  λ image _, bool_decide (image ∈ images).

(** A [run.toml] with two run images, the second with a mirror. *)
Definition runImages : list platform.RunImageForExport :=
  [ {| platform.Image := "index.docker.io/cnb/run";
       platform.Mirrors := [] |};
    {| platform.Image := "gcr.io/cnb/run";
       platform.Mirrors := ["r.example/run"] |} ].

Definition exportInputs (ref : string) : platform.LifecycleInputs :=
  {| platform.PlatformAPI := platform.api_0_12;
     platform.StackPath := "/cnb/stack.toml";
     platform.RunPath := "/cnb/run.toml";
     platform.RunImageRef := ref;
     platform.LayersDir := "/layers" |}.

(** A registry handler with one insecure registry, and probes that accept
    a reference when it comes with an insecure option. *)
Definition insecureOnly : string → unit → list image.ImageOption → bool :=
  λ _ _ opts, bool_decide (opts ≠ []).

Definition handler : image.DefaultRegistryHandler :=
  image.NewRegistryHandler tt ["localhost:5000"].

(** The flags of a rebase with the deprecated [-image] flag. *)
Definition rebaseFlags : rebase.rebaseCmd :=
  {| rebase.imageNames := []; rebase.reportPath := "<layers>/report.toml";
     rebase.runImageRef := ""; rebase.deprecatedRunImageRef := "cnb/run";
     rebase.platformAPI := "0.6"; rebase.useDaemon := false;
     rebase.uid := 1000; rebase.gid := 1000 |}.

Definition callerEnviron : list string :=
  ["PATH=/usr/bin"; "SECRET_TOKEN=abc"; "HOME=/home/cnb"; "not-a-variable"].

Definition otherEnviron : list string :=
  ["HOME=/tmp"; "HOME=/home/cnb"; "TERM=xterm"; "PATH=/usr/bin"].

End scenarios.

(** * Properties of the build executor *)

Module LifecycleFacts.
Import lifecycle.

(** ** Strings *)

Lemma strings_Contains_skip (pre s sub : string) :
  strings_Contains s sub = true → strings_Contains (pre +:+ s) sub = true.
Proof.
  intros H. induction pre as [|c pre IH]; [exact H|].
  change (String c pre +:+ s) with (String c (pre +:+ s)).
  unfold strings_Contains; fold strings_Contains.
  rewrite IH. by case_match.
Qed.

Lemma deprecated_version_msg_contains (name : string) :
  strings_Contains (deprecated_version_msg name)
                   "top level version which is deprecated" = true.
Proof.
  unfold deprecated_version_msg.
  by do 2 apply strings_Contains_skip.
Qed.

(** ** API versions *)

Lemma api_0_5_not_0_2 (v : APIVersion) :
  ¬ (api_Compare v api_0_5 < 0)%Z → api_Equal v api_0_2 = false.
Proof.
  destruct v as [ma mi]. unfold api_Equal, api_Compare; simpl.
  intros H. apply bool_decide_eq_false.
  repeat case_decide; lia.
Qed.

Lemma adaptPlan_new (b : DefaultBuildpackTOML) (plan : BuildpackPlan) :
  ¬ (api_Compare (API b) api_0_5 < 0)%Z → adaptPlan b plan = plan.
Proof. intros H. unfold adaptPlan. by rewrite api_0_5_not_0_2. Qed.

(** ** The executor monad *)

Lemma bind_inr {A B} (m : M A) (k : A → M B) log b log' :
  bind m k log = (inr b, log') →
  ∃ a log1, m log = (inr a, log1) ∧ k a log1 = (inr b, log').
Proof.
  unfold bind. destruct (m log) as [[e|a] log1]; [done|]. eauto.
Qed.

Lemma bind_ok {A B} (m : M A) (k : A → M B) log a log1 :
  m log = (inr a, log1) → bind m k log = k a log1.
Proof. unfold bind. by intros ->. Qed.

Lemma bind_err {A B} (m : M A) (k : A → M B) log e log1 :
  m log = (inl e, log1) → bind m k log = (inl e, log1).
Proof. unfold bind. by intros ->. Qed.

Lemma check_inr r log u log' :
  check r log = (inr u, log') → r = None ∧ log' = log.
Proof. destruct r; simpl; [done|]. by intros [= _ <-]. Qed.

Lemma emit_inr ev log u log' :
  emit ev log = (inr u, log') → log' = log ++ [ev].
Proof. by intros [= _ <-]. Qed.

Lemma ret_inr {A} (a a' : A) log log' :
  ret a log = (inr a', log') → a' = a ∧ log' = log.
Proof. by intros [= <- <-]. Qed.

Ltac inv_exec :=
  repeat match goal with
    | H : bind _ _ _ = (inr _, _) |- _ =>
        apply bind_inr in H as (? & ? & ? & H)
    | H : check _ _ = (inr _, _) |- _ => apply check_inr in H as [? ?]
    | H : emit _ _ = (inr _, _) |- _ => apply emit_inr in H
    | H : ret _ _ = (inr _, _) |- _ => apply ret_inr in H as [? ?]
    end; subst.

(** ** The stages of [Build] *)

Section stages.
Variable w : World.

Lemma preparePaths_paths b plan config log paths log' :
  preparePaths w (Info_ID (Buildpack_ b)) plan (LayersDir config)
               (PlanDir config) log = (inr paths, log') →
  paths = (bpLayersDirOf w b config, bpPlanPathOf w b config).
Proof. unfold preparePaths. intros H. by inv_exec. Qed.

Lemma upToOutputs_paths b plan config log paths :
  fst (upToOutputs w b plan config log) = inr paths →
  paths = (bpLayersDirOf w b config, bpPlanPathOf w b config).
Proof.
  destruct (upToOutputs w b plan config log) as [r log'] eqn:H.
  simpl. intros ->. unfold upToOutputs in H. inv_exec.
  by eapply preparePaths_paths.
Qed.

Lemma Build_split b plan config log :
  Build w b plan config log
  = match upToOutputs w b plan config log with
    | (inl e, log') => (inl e, log')
    | (inr paths, log') =>
        (readOutputFiles w b (fst paths) (snd paths) (adaptPlan b plan),
         log')
    end.
Proof.
  unfold Build, upToOutputs, bind, ret, lift, fail.
  destruct (preparePaths _ _ _ _ _ _) as [[e|paths] log1]; [done|].
  destruct (runBuildCmd _ _ _ _ _ _) as [[e|[]] log2]; [done|].
  destruct (setupEnv _ _ _) as [[e|[]] log3]; [done|].
  by destruct (readOutputFiles _ _ _ _ _).
Qed.

(** A build that returns a result has read the outputs under the
    prepared paths. *)
Lemma Build_result b plan config log br :
  fst (Build w b plan config log) = inr br →
  readOutputFiles w b (bpLayersDirOf w b config)
    (bpPlanPathOf w b config) (adaptPlan b plan) = inr br.
Proof.
  rewrite Build_split.
  destruct (upToOutputs w b plan config log) as [[e|paths] log'] eqn:Hup;
    [done|].
  assert (fst (upToOutputs w b plan config log) = inr paths) as Hp
    by by rewrite Hup.
  by apply upToOutputs_paths in Hp as ->.
Qed.

(** A build that got as far as its outputs returns what reading them
    returns. *)
Lemma Build_outputs b plan config log paths :
  fst (upToOutputs w b plan config log) = inr paths →
  fst (Build w b plan config log)
  = readOutputFiles w b (bpLayersDirOf w b config)
      (bpPlanPathOf w b config) (adaptPlan b plan).
Proof.
  intros Hp. rewrite Build_split.
  pose proof (upToOutputs_paths _ _ _ _ _ Hp) as ->.
  by destruct (upToOutputs w b plan config log) as [[e|paths] log'];
    simplify_eq/=.
Qed.

(** A build that did not get as far as its outputs fails. *)
Lemma Build_early b plan config log e :
  fst (upToOutputs w b plan config log) = inl e →
  fst (Build w b plan config log) = inl e.
Proof.
  intros Hp. rewrite Build_split.
  by destruct (upToOutputs w b plan config log) as [[e'|paths] log'];
    simplify_eq/=.
Qed.

End stages.

(** ** Plan filtering and validation *)

Lemma containsName_elem_of (unmet : list Unmet) (name : string) :
  containsName unmet name = bool_decide (name ∈ map Unmet_Name unmet).
Proof.
  induction unmet as [|u unmet IH]; [done|].
  cbn [containsName map].
  destruct (decide (Unmet_Name u = name)) as [Hu|Hu].
  - symmetry. apply bool_decide_eq_true. rewrite Hu. by left.
  - rewrite IH. apply bool_decide_ext. rewrite elem_of_cons.
    split; [by right | by intros [?|?]].
Qed.

Lemma names_filter_entries (entries : list Require) (unmet : list Unmet) :
  names (filter_entries entries unmet)
  = List.filter (λ n, negb (bool_decide (n ∈ map Unmet_Name unmet)))
                (names entries).
Proof.
  induction entries as [|entry entries IH]; [done|]. simpl.
  rewrite containsName_elem_of.
  destruct (bool_decide _); simpl; by rewrite <- IH.
Qed.

Lemma found_in_elem_of (entries : list Require) (name : string) :
  found_in entries name = true ↔ name ∈ names entries.
Proof.
  induction entries as [|req entries IH]; simpl.
  - split; [done|]. by intros ?%elem_of_nil.
  - rewrite elem_of_cons. case_decide as Hn.
    + split; [by left | done].
    + rewrite IH. split; [by right | by intros [?|?]].
Qed.

Lemma validateUnmet_invalid (unmet : list Unmet) (plan : BuildpackPlan) u :
  u ∈ unmet →
  Unmet_Name u = "" ∨ Unmet_Name u ∉ names (Entries plan) →
  is_Some (validateUnmet unmet plan).
Proof.
  intros Hu Hbad. induction unmet as [|u' unmet IH]; [by inversion Hu|].
  simpl. case_decide; [eauto|].
  destruct (found_in _ _) eqn:Hfound; simpl; [|eauto].
  apply elem_of_cons in Hu as [->|Hu]; [|by apply IH].
  apply found_in_elem_of in Hfound. by destruct Hbad.
Qed.

Lemma validateBOM_new_error (bom : list BOMEntry) (e : error) :
  validateBOM_new bom = Some e →
  ∃ name, e = NewError (deprecated_version_msg name).
Proof.
  induction bom as [|entry bom IH]; [done|]. simpl.
  case_bool_decide; [|done]. intros [= <-]. eauto.
Qed.

Lemma validateBOM_new_passes (bom : list BOMEntry) entry :
  validateBOM_new bom = None → entry ∈ bom →
  Require_Version (BOMEntry_Require entry) = "".
Proof.
  induction bom as [|entry' bom IH]; [by inversion 2|]. simpl.
  case_bool_decide as Hv; [done|]. intros Hrest.
  intros [->|Hin]%elem_of_cons; [|by apply IH].
  by destruct (decide (Require_Version (BOMEntry_Require entry') = "")).
Qed.

Lemma validateBOM_old_error (bom : list BOMEntry) (e : error) :
  validateBOM_old bom = Some e → e = NewError version_mismatch_msg.
Proof.
  induction bom as [|entry bom IH]; [done|]. simpl.
  repeat case_match; naive_solver.
Qed.

Lemma validateBOM_old_passes (bom : list BOMEntry) entry version :
  validateBOM_old bom = None → entry ∈ bom →
  Require_Version (BOMEntry_Require entry) ≠ "" →
  Require_Metadata (BOMEntry_Require entry) !! "version" = Some version →
  Require_Version (BOMEntry_Require entry) = Sprintf_v version.
Proof.
  induction bom as [|entry' bom IH]; [by inversion 2|]. simpl.
  intros Hok [->|Hin]%elem_of_cons Hv Hm.
  - rewrite Hm in Hok.
    destruct (decide (Require_Version (BOMEntry_Require entry')
                      = Sprintf_v version)) as [|Hne]; [done|].
    rewrite !bool_decide_eq_true_2 in Hok by done. done.
  - apply IH; [|done..]. by repeat case_match.
Qed.

Lemma withBuildpack_elem_of bp bom entry :
  entry ∈ withBuildpack bp bom →
  BOMEntry_Buildpack entry = noHomepage (noAPI bp)
  ∧ ∃ entry', entry' ∈ bom
              ∧ BOMEntry_Require entry = BOMEntry_Require entry'.
Proof.
  unfold withBuildpack. intros (entry' & -> & Hin)%list_elem_of_fmap.
  eauto.
Qed.

(** ** Reading the outputs *)

Section outputs.
Variable w : World.

(** What a successful read under API 0.5 and above went through. *)
Lemma readOutputFiles_new b d p plan br :
  ¬ (api_Compare (API b) api_0_5 < 0)%Z →
  readOutputFiles w b d p plan = inr br →
  ∃ launch build,
    decodeOptional (DecodeLaunch w (filepath_Join [d; "launch.toml"]))
                   emptyLaunchTOML = inr launch
    ∧ decodeOptional (DecodeBuild w (filepath_Join [d; "build.toml"]))
                     emptyBuildTOML = inr build
    ∧ validateBOM_new (LaunchTOML_BOM launch) = None
    ∧ validateBOM_new (BuildTOML_BOM build) = None
    ∧ validateUnmet (BuildTOML_Unmet build) plan = None
    ∧ BOM br = withBuildpack
                 {| Buildpack_ID := Info_ID (Buildpack_ b);
                    Buildpack_Version := Info_Version (Buildpack_ b);
                    Buildpack_API := ""; Buildpack_Homepage := "" |}
                 (LaunchTOML_BOM launch)
    ∧ Met br = names (Entries (filter plan (BuildTOML_Unmet build))).
Proof.
  intros Hapi. unfold readOutputFiles, validateBOM.
  destruct (decodeOptional (DecodeLaunch _ _) _) as [e|launch]; [done|].
  destruct (decide _) as [|_]; [done|].
  destruct (decodeOptional (DecodeBuild _ _) _) as [e|build]; [done|].
  destruct (validateBOM_new (LaunchTOML_BOM launch)) eqn:Hl; [done|].
  destruct (validateBOM_new (BuildTOML_BOM build)) eqn:Hb; [done|].
  destruct (validateUnmet _ _) eqn:Hu; [done|].
  intros [= <-]. by exists launch, build.
Qed.

(** What a successful read under an API below 0.5 went through. *)
Lemma readOutputFiles_old b d p plan br :
  (api_Compare (API b) api_0_5 < 0)%Z →
  readOutputFiles w b d p plan = inr br →
  ∃ planOut,
    decodeRequired (DecodePlan w p) = inr planOut
    ∧ validateBOM_old (toBOM planOut) = None
    ∧ BOM br = withBuildpack
                 {| Buildpack_ID := Info_ID (Buildpack_ b);
                    Buildpack_Version := Info_Version (Buildpack_ b);
                    Buildpack_API := ""; Buildpack_Homepage := "" |}
                 (toBOM planOut)
    ∧ Met br = names (Entries planOut).
Proof.
  intros Hapi. unfold readOutputFiles, validateBOM.
  destruct (decodeOptional (DecodeLaunch _ _) _) as [e|launch]; [done|].
  destruct (decide _) as [_|]; [|done].
  destruct (decodeRequired _) as [e|planOut]; [done|].
  destruct (validateBOM_old _) eqn:Hv; [done|].
  intros [= <-]. by exists planOut.
Qed.

Lemma unmetNames_decoded b config build :
  decodeOptional (buildTOMLOf w b config) emptyBuildTOML = inr build →
  unmetNames w b config = map Unmet_Name (BuildTOML_Unmet build).
Proof.
  unfold unmetNames, decodeOptional.
  destruct (buildTOMLOf w b config); by intros [= <-].
Qed.

End outputs.

(** ** The claims on the build result *)

(** C1: for API 0.5 and above, the [Met] list of a returned build result
    is the names of the input plan entries without those the buildpack
    names in the [unmet] entries of [build.toml]; so the name of every
    input plan entry is in exactly one of [Met] and the unmet names. *)
Theorem Met_is_plan_minus_unmet (w : World) (b : DefaultBuildpackTOML)
    (plan : BuildpackPlan) (config : BuildConfig) (log : list Event)
    (br : BuildResult) :
  ¬ (api_Compare (API b) api_0_5 < 0)%Z →
  fst (Build w b plan config log) = inr br →
  Met br = List.filter
             (λ n, negb (bool_decide (n ∈ unmetNames w b config)))
             (names (Entries plan))
  ∧ ∀ entry, entry ∈ Entries plan →
      (Require_Name entry ∈ Met br
       ∧ Require_Name entry ∉ unmetNames w b config)
      ∨ ((Require_Name entry ∉ Met br)
         ∧ Require_Name entry ∈ unmetNames w b config).
Proof.
  intros Hapi Hbr. apply Build_result in Hbr.
  rewrite adaptPlan_new in Hbr by done.
  apply readOutputFiles_new in Hbr
    as (launch & build & _ & Hbuild & _ & _ & _ & _ & Hmet); [|done].
  apply unmetNames_decoded in Hbuild as ->.
  rewrite Hmet. unfold filter; cbn [Entries].
  rewrite names_filter_entries. split; [done|].
  intros entry Hin.
  assert (Require_Name entry ∈ names (Entries plan)) as Hname
    by (unfold names; apply list_elem_of_fmap; eauto).
  destruct (decide (Require_Name entry
                    ∈ map Unmet_Name (BuildTOML_Unmet build))) as [Hu|Hu].
  - right. split; [|done].
    rewrite list_elem_of_In, filter_In, <- list_elem_of_In.
    rewrite bool_decide_eq_true_2 by done. by intros [_ ?].
  - left. split; [|done].
    rewrite list_elem_of_In, filter_In, <- list_elem_of_In.
    by rewrite bool_decide_eq_false_2.
Qed.

Lemma Met_is_plan_minus_unmet_witness :
  ∃ br,
    fst (Build scenarios.unmetWorld (scenarios.bpTOML api_0_5)
           scenarios.unmetPlan scenarios.config []) = inr br
    ∧ Met br = ["some-dep"]
    ∧ Met br = List.filter
                 (λ n, negb (bool_decide
                    (n ∈ unmetNames scenarios.unmetWorld
                           (scenarios.bpTOML api_0_5) scenarios.config)))
                 (names (Entries scenarios.unmetPlan)).
Proof.
  eexists. split; [vm_compute; reflexivity|].
  split; [reflexivity|].
  apply (Met_is_plan_minus_unmet scenarios.unmetWorld
           (scenarios.bpTOML api_0_5) scenarios.unmetPlan
           scenarios.config []).
  - vm_compute. discriminate.
  - vm_compute. reflexivity.
Defined.

(** C2: for API 0.5 and above, once [Build] has got as far as reading
    [launch.toml] and [build.toml], a BOM entry of either file with a
    non-empty top-level version makes it fail with an error whose message
    contains "top level version which is deprecated". *)
Theorem top_level_version_is_rejected (w : World)
    (b : DefaultBuildpackTOML) (plan : BuildpackPlan) (config : BuildConfig)
    (log : list Event) (paths : string * string)
    (launch : LaunchTOML) (build : BuildTOML) (entry : BOMEntry) :
  ¬ (api_Compare (API b) api_0_5 < 0)%Z →
  fst (upToOutputs w b plan config log) = inr paths →
  decodeOptional (launchTOMLOf w b config) emptyLaunchTOML = inr launch →
  decodeOptional (buildTOMLOf w b config) emptyBuildTOML = inr build →
  entry ∈ LaunchTOML_BOM launch ++ BuildTOML_BOM build →
  Require_Version (BOMEntry_Require entry) ≠ "" →
  ∃ msg,
    fst (Build w b plan config log) = inl (NewError msg)
    ∧ strings_Contains msg "top level version which is deprecated" = true.
Proof.
  intros Hapi Hup Hlaunch Hbuild Hin Hversion.
  rewrite (Build_outputs _ _ _ _ _ _ Hup).
  unfold readOutputFiles, validateBOM.
  unfold launchTOMLOf in Hlaunch. unfold buildTOMLOf in Hbuild.
  rewrite Hlaunch. destruct (decide _) as [|_]; [done|]. rewrite Hbuild.
  destruct (validateBOM_new (LaunchTOML_BOM launch)) as [e|] eqn:Hl.
  { apply validateBOM_new_error in Hl as [name ->].
    eauto using deprecated_version_msg_contains. }
  destruct (validateBOM_new (BuildTOML_BOM build)) as [e|] eqn:Hb.
  { apply validateBOM_new_error in Hb as [name ->].
    eauto using deprecated_version_msg_contains. }
  apply elem_of_app in Hin as [Hin|Hin];
    [eapply validateBOM_new_passes in Hl | eapply validateBOM_new_passes in Hb];
    done.
Qed.

Lemma top_level_version_is_rejected_witness :
  ∃ msg,
    fst (Build scenarios.versionedWorld (scenarios.bpTOML api_0_5)
           {| Entries := [] |} scenarios.config []) = inl (NewError msg)
    ∧ strings_Contains msg "top level version which is deprecated" = true.
Proof.
  apply (top_level_version_is_rejected scenarios.versionedWorld
           (scenarios.bpTOML api_0_5) {| Entries := [] |} scenarios.config []
           ("launch/A", "launch/app/A/plan.toml")
           scenarios.versionedLaunch emptyBuildTOML
           scenarios.versionedEntry).
  - vm_compute. discriminate.
  - vm_compute. reflexivity.
  - vm_compute. reflexivity.
  - vm_compute. reflexivity.
  - apply elem_of_app. left. apply list_elem_of_here.
  - vm_compute. discriminate.
Defined.

(** C5: for an API below 0.5, once [Build] has got as far as reading the
    plan the buildpack rewrote, an entry of that plan whose top-level
    version and [metadata.version] are both set and differ as strings
    makes it fail with an error whose message contains "top level version
    does not match metadata version"; and in the BOM of a returned result
    the two are equal wherever both are set. *)
Theorem version_must_match_metadata (w : World) (b : DefaultBuildpackTOML)
    (plan : BuildpackPlan) (config : BuildConfig) (log : list Event) :
  (api_Compare (API b) api_0_5 < 0)%Z →
  (∀ paths launch planOut entry version,
     fst (upToOutputs w b plan config log) = inr paths →
     decodeOptional (launchTOMLOf w b config) emptyLaunchTOML = inr launch →
     planTOMLOf w b config = Decoded planOut →
     entry ∈ Entries planOut →
     Require_Version entry ≠ "" →
     Require_Metadata entry !! "version" = Some version →
     Require_Version entry ≠ Sprintf_v version →
     ∃ msg,
       fst (Build w b plan config log) = inl (NewError msg)
       ∧ strings_Contains
           msg "top level version does not match metadata version" = true)
  ∧ (∀ br entry version,
       fst (Build w b plan config log) = inr br →
       entry ∈ BOM br →
       Require_Version (BOMEntry_Require entry) ≠ "" →
       Require_Metadata (BOMEntry_Require entry) !! "version"
         = Some version →
       Require_Version (BOMEntry_Require entry) = Sprintf_v version).
Proof.
  intros Hapi. split.
  - intros paths launch planOut entry version Hup Hlaunch Hplan Hin Hv Hm Hne.
    rewrite (Build_outputs _ _ _ _ _ _ Hup).
    unfold readOutputFiles, validateBOM.
    unfold launchTOMLOf in Hlaunch. unfold planTOMLOf in Hplan.
    rewrite Hlaunch, Hplan. destruct (decide _) as [_|]; [|done].
    cbn [decodeRequired].
    destruct (validateBOM_old (toBOM planOut)) as [e|] eqn:Hold.
    + apply validateBOM_old_error in Hold as ->.
      exists version_mismatch_msg. split; reflexivity.
    + exfalso. apply Hne.
      apply (validateBOM_old_passes (toBOM planOut)
               {| BOMEntry_Require := entry;
                  BOMEntry_Buildpack := zeroBuildpack |}); try done.
      unfold toBOM. apply list_elem_of_fmap. eauto.
  - intros br entry version Hbr Hin Hv Hm.
    apply Build_result, readOutputFiles_old in Hbr
      as (planOut & _ & Hold & Hbom & _); [|done].
    rewrite Hbom in Hin.
    apply withBuildpack_elem_of in Hin as (_ & entry' & Hin' & Heq).
    rewrite Heq in *. by eapply validateBOM_old_passes.
Qed.

Lemma version_must_match_metadata_witness :
  ∃ msg,
    fst (Build scenarios.mismatchWorld
           (scenarios.bpTOML {| Major := 0; Minor := 4 |})
           {| Entries := [] |} scenarios.config []) = inl (NewError msg)
    ∧ strings_Contains
        msg "top level version does not match metadata version" = true.
Proof.
  refine (proj1 (version_must_match_metadata scenarios.mismatchWorld
                   (scenarios.bpTOML {| Major := 0; Minor := 4 |})
                   {| Entries := [] |} scenarios.config [] _)
            ("launch/A", "launch/app/A/plan.toml") emptyLaunchTOML
            {| Entries := [scenarios.mismatchEntry] |}
            scenarios.mismatchEntry (MString "v1") _ _ _ _ _ _ _).
  - vm_compute. reflexivity.
  - vm_compute. reflexivity.
  - vm_compute. reflexivity.
  - vm_compute. reflexivity.
  - apply list_elem_of_here.
  - vm_compute. discriminate.
  - vm_compute. reflexivity.
  - vm_compute. discriminate.
Defined.

(** C6: for API 0.5 and above, an [unmet] entry of [build.toml] whose
    name is empty or is the name of no input plan entry makes [Build]
    fail. *)
Theorem invalid_unmet_is_rejected (w : World) (b : DefaultBuildpackTOML)
    (plan : BuildpackPlan) (config : BuildConfig) (log : list Event)
    (build : BuildTOML) (u : Unmet) :
  ¬ (api_Compare (API b) api_0_5 < 0)%Z →
  buildTOMLOf w b config = Decoded build →
  u ∈ BuildTOML_Unmet build →
  Unmet_Name u = "" ∨ Unmet_Name u ∉ names (Entries plan) →
  ∃ e, fst (Build w b plan config log) = inl e.
Proof.
  intros Hapi Hbuild Hin Hbad.
  destruct (fst (upToOutputs w b plan config log)) as [e|paths] eqn:Hup.
  { exists e. by apply Build_early. }
  rewrite (Build_outputs _ _ _ _ _ _ Hup), adaptPlan_new by done.
  unfold readOutputFiles. unfold buildTOMLOf in Hbuild. rewrite Hbuild.
  cbn [decodeOptional].
  destruct (validateUnmet_invalid _ plan _ Hin Hbad) as [e He].
  rewrite He.
  destruct (decodeOptional (DecodeLaunch _ _) _) as [e'|launch]; [eauto|].
  destruct (decide _) as [|_]; [done|].
  destruct (validateBOM (LaunchTOML_BOM launch) _); [eauto|].
  destruct (validateBOM (BuildTOML_BOM build) _); eauto.
Qed.

Lemma invalid_unmet_is_rejected_witness :
  ∃ e, fst (Build scenarios.unknownUnmetWorld (scenarios.bpTOML api_0_5)
              scenarios.unmetPlan scenarios.config []) = inl e.
Proof.
  apply (invalid_unmet_is_rejected scenarios.unknownUnmetWorld
           (scenarios.bpTOML api_0_5) scenarios.unmetPlan scenarios.config
           [] scenarios.unknownUnmet {| Unmet_Name := "unknown-dep" |}).
  - vm_compute. discriminate.
  - vm_compute. reflexivity.
  - apply list_elem_of_here.
  - right. apply (bool_decide_unpack _). vm_compute. exact I.
Defined.

(** C8: in a returned build result every BOM entry is attributed to the
    identity of the buildpack that was run, its id and version, with the
    API and homepage fields empty. *)
Theorem BOM_buildpack_is_identity (w : World) (b : DefaultBuildpackTOML)
    (plan : BuildpackPlan) (config : BuildConfig) (log : list Event)
    (br : BuildResult) (entry : BOMEntry) :
  fst (Build w b plan config log) = inr br →
  entry ∈ BOM br →
  BOMEntry_Buildpack entry
  = {| Buildpack_ID := Info_ID (Buildpack_ b);
       Buildpack_Version := Info_Version (Buildpack_ b);
       Buildpack_API := ""; Buildpack_Homepage := "" |}.
Proof.
  intros Hbr Hin. apply Build_result in Hbr.
  destruct (decide (api_Compare (API b) api_0_5 < 0)%Z) as [Hapi|Hapi].
  - apply readOutputFiles_old in Hbr as (planOut & _ & _ & Hbom & _);
      [|done].
    rewrite Hbom in Hin. by apply withBuildpack_elem_of in Hin as [-> _].
  - apply readOutputFiles_new in Hbr
      as (launch & build & _ & _ & _ & _ & _ & Hbom & _); [|done].
    rewrite Hbom in Hin. by apply withBuildpack_elem_of in Hin as [-> _].
Qed.

Lemma BOM_buildpack_is_identity_witness :
  ∃ br entry,
    fst (Build scenarios.unmetWorld (scenarios.bpTOML api_0_5)
           scenarios.unmetPlan scenarios.config []) = inr br
    ∧ entry ∈ BOM br
    ∧ BOMEntry_Buildpack entry
      = {| Buildpack_ID := "A"; Buildpack_Version := "v1";
           Buildpack_API := ""; Buildpack_Homepage := "" |}.
Proof.
  eexists. eexists. split; [vm_compute; reflexivity|].
  split; [apply list_elem_of_here|].
  eapply (BOM_buildpack_is_identity scenarios.unmetWorld
            (scenarios.bpTOML api_0_5) scenarios.unmetPlan
            scenarios.config []).
  - vm_compute. reflexivity.
  - apply list_elem_of_here.
Defined.

(** ** The log of calls *)

Section log.
Variable w : World.

(** [preparePaths] makes the two directories and writes the plan it was
    given, in this order, up to the first failure; its errors are those
    of the file system. *)
Lemma preparePaths_log b plan config log :
  let layersDir := bpLayersDirOf w b config in
  let planDir := bpPlanDirOf w b config in
  let planPath := bpPlanPathOf w b config in
  let r := preparePaths w (Info_ID (Buildpack_ b)) plan
             (LayersDir config) (PlanDir config) log in
  (∃ msg, MkdirAll w layersDir = Some msg
          ∧ r = (inl (ExternalError msg), log ++ [EvMkdirAll layersDir]))
  ∨ (∃ msg, MkdirAll w layersDir = None ∧ MkdirAll w planDir = Some msg
            ∧ r = (inl (ExternalError msg),
                   log ++ [EvMkdirAll layersDir; EvMkdirAll planDir]))
  ∨ (MkdirAll w layersDir = None ∧ MkdirAll w planDir = None
     ∧ ∃ res, r = (res, log ++ [EvMkdirAll layersDir; EvMkdirAll planDir;
                                EvWriteTOML planPath plan])
              ∧ (res = inr (layersDir, planPath)
                 ∨ ∃ msg, res = inl (ExternalError msg))).
Proof.
  intros layersDir planDir planPath.
  unfold preparePaths, bind, emit.
  fold (bpLayersDirOf w b config) (bpPlanDirOf w b config).
  fold (bpPlanPathOf w b config). fold layersDir planDir planPath.
  destruct (MkdirAll w layersDir) as [msg|] eqn:H1; simpl; [eauto|].
  destruct (MkdirAll w planDir) as [msg|] eqn:H2; simpl.
  { right; left. exists msg. by rewrite <- !app_assoc. }
  right; right. split; [done|]. split; [done|].
  rewrite <- !app_assoc; simpl.
  destruct (WriteTOML w planPath plan); simpl; eauto 10.
Qed.

(** [runBuildCmd] either fails to get the child's environment, or runs
    the one command and turns its failure into a buildpack error. *)
Lemma runBuildCmd_log b d p config log :
  (∃ msg, runBuildCmd w b d p config log = (inl (ExternalError msg), log))
  ∨ ∃ cmd,
      (Cmd_Run w cmd = None
       ∧ runBuildCmd w b d p config log = (inr tt, log ++ [EvRun cmd]))
      ∨ (∃ root, Cmd_Run w cmd = Some root
           ∧ runBuildCmd w b d p config log
             = (inl (LifecycleError root ErrTypeBuildpack),
                log ++ [EvRun cmd])).
Proof.
  unfold runBuildCmd, bind, emit, ret, fail, NewLifecycleError.
  destruct (Info_ClearEnv (Buildpack_ b)).
  - right. exists (buildCmd b d p config (Env_List w)).
    destruct (Cmd_Run w _) eqn:Hrun; eauto.
  - destruct (Env_WithPlatform w (PlatformDir config)) as [msg|env]; [eauto|].
    right. exists (buildCmd b d p config env).
    destruct (Cmd_Run w _) eqn:Hrun; eauto.
Qed.

Lemma env_call_log c log :
  ∃ r, env_call w c log = (r, log ++ [EvEnv c])
       ∧ match r with inl e => plain e | inr _ => True end.
Proof.
  unfold env_call, bind, history, emit, check.
  destruct (Env_Add w log c); simpl; eexists; (split; [done|]); done.
Qed.

Lemma eachDir_loop_log dir fn files :
  (∀ path log, ∃ r evs, fn path log = (r, log ++ evs)
                        ∧ Forall is_env evs
                        ∧ match r with inl e => plain e | inr _ => True end) →
  ∀ log, ∃ r evs, eachDir_loop dir fn files log = (r, log ++ evs)
                  ∧ Forall is_env evs
                  ∧ match r with inl e => plain e | inr _ => True end.
Proof.
  intros Hfn. induction files as [|f files IH]; intros log; simpl.
  - exists (inr tt), []. by rewrite app_nil_r.
  - destruct (FileInfo_IsDir f); simpl; [|apply IH].
    unfold bind.
    destruct (Hfn (filepath_Join [dir; FileInfo_Name f]) log)
      as (r & evs & -> & Hevs & Hr).
    destruct r as [e|[]]; [by exists (inl e), evs|].
    destruct (IH (log ++ evs)) as (r' & evs' & -> & Hevs' & Hr').
    exists r', (evs ++ evs'). rewrite app_assoc.
    split; [done|]. split; [by apply Forall_app|done].
Qed.

Lemma eachDir_log dir fn :
  (∀ path log, ∃ r evs, fn path log = (r, log ++ evs)
                        ∧ Forall is_env evs
                        ∧ match r with inl e => plain e | inr _ => True end) →
  ∀ log, ∃ r evs, eachDir w dir fn log = (r, log ++ evs)
                  ∧ Forall is_env evs
                  ∧ match r with inl e => plain e | inr _ => True end.
Proof.
  intros Hfn log. unfold eachDir.
  destruct (ioutil_ReadDir w dir) as [files|msg|msg].
  - by apply eachDir_loop_log.
  - exists (inr tt), []. by rewrite app_nil_r.
  - exists (inl (ExternalError msg)), []. by rewrite app_nil_r.
Qed.

(** [setupEnv] runs no command, and its errors are those of the file
    system and of the [BuildEnv]. *)
Lemma setupEnv_log layersDir log :
  ∃ r evs, setupEnv w layersDir log = (r, log ++ evs)
           ∧ Forall is_env evs
           ∧ match r with inl e => plain e | inr _ => True end.
Proof.
  unfold setupEnv, bind.
  edestruct (eachDir_log layersDir) as (r & evs & -> & Hevs & Hr).
  { intros path log'. cbv beta.
    destruct (isBuild w (path +:+ ".toml")); simpl.
    - destruct (env_call_log (AddRootDir path) log') as (r & -> & Hr).
      exists r, [EvEnv (AddRootDir path)]. repeat constructor. done.
    - exists (inr tt), []. by rewrite app_nil_r. }
  destruct r as [e|[]]; [by exists (inl e), evs|].
  edestruct (eachDir_log layersDir) as (r & evs' & -> & Hevs' & Hr').
  { intros path log'. cbv beta.
    destruct (isBuild w (path +:+ ".toml")); simpl.
    - unfold bind.
      destruct (env_call_log (AddEnvDir (filepath_Join [path; "env"])) log')
        as (r & -> & Hr').
      destruct r as [e|[]].
      { exists (inl e), [EvEnv (AddEnvDir (filepath_Join [path; "env"]))].
        repeat constructor. done. }
      destruct (env_call_log
                  (AddEnvDir (filepath_Join [path; "env.build"]))
                  (log' ++ [EvEnv (AddEnvDir (filepath_Join [path; "env"]))]))
        as (r & -> & Hr'').
      exists r, [EvEnv (AddEnvDir (filepath_Join [path; "env"]));
                 EvEnv (AddEnvDir (filepath_Join [path; "env.build"]))].
      rewrite <- app_assoc. repeat constructor. done.
    - exists (inr tt), []. by rewrite app_nil_r. }
  exists r, (evs ++ evs'). rewrite app_assoc.
  split; [done|]. split; [by apply Forall_app|done].
Qed.

Lemma validateUnmet_plain unmet plan e :
  validateUnmet unmet plan = Some e → plain e.
Proof.
  induction unmet as [|u unmet IH]; [done|]. simpl.
  repeat case_match; try done; by intros [= <-].
Qed.

Lemma validateBOM_plain bom bpAPI e :
  validateBOM bom bpAPI = Some e → plain e.
Proof.
  unfold validateBOM. case_decide.
  - by intros ->%validateBOM_old_error.
  - by intros [name ->]%validateBOM_new_error.
Qed.

Lemma readOutputFiles_plain b d p plan e :
  readOutputFiles w b d p plan = inl e → plain e.
Proof.
  unfold readOutputFiles.
  destruct (decodeOptional (DecodeLaunch w _) _) as [e'|launch] eqn:Hl.
  { intros [= <-]. unfold decodeOptional in Hl.
    destruct (DecodeLaunch w _); by simplify_eq. }
  destruct (decide _).
  - destruct (decodeRequired _) as [e'|planOut] eqn:Hp.
    { intros [= <-]. unfold decodeRequired in Hp.
      destruct (DecodePlan w _); by simplify_eq. }
    destruct (validateBOM _ _) eqn:Hv; [|done].
    intros [= <-]. by eapply validateBOM_plain.
  - destruct (decodeOptional (DecodeBuild w _) _) as [e'|build] eqn:Hb.
    { intros [= <-]. unfold decodeOptional in Hb.
      destruct (DecodeBuild w _); by simplify_eq. }
    destruct (validateBOM (LaunchTOML_BOM launch) _) eqn:Hvl.
    { intros [= <-]. by eapply validateBOM_plain. }
    destruct (validateBOM (BuildTOML_BOM build) _) eqn:Hvb.
    { intros [= <-]. by eapply validateBOM_plain. }
    destruct (validateUnmet _ _) eqn:Hu; [|done].
    intros [= <-]. by eapply validateUnmet_plain.
Qed.

(** The calls of a whole [Build], from an empty log: the two
    directories and the plan, then the command, then the [BuildEnv]
    calls; and where each kind of error comes from. *)
Lemma Build_log b plan config :
  let r := Build w b plan config [] in
  let prep := [EvMkdirAll (bpLayersDirOf w b config);
               EvMkdirAll (bpPlanDirOf w b config);
               EvWriteTOML (bpPlanPathOf w b config) (adaptPlan b plan)] in
  (∃ e, fst r = inl e ∧ plain e ∧ snd r `prefix_of` prep
        ∧ (snd r = prep
           ∨ MkdirAll w (bpLayersDirOf w b config) ≠ None
           ∨ MkdirAll w (bpPlanDirOf w b config) ≠ None))
  ∨ (∃ cmd envs,
       snd r = prep ++ [EvRun cmd] ++ envs ∧ Forall is_env envs
       ∧ ((∃ root, Cmd_Run w cmd = Some root
                   ∧ fst r = inl (LifecycleError root ErrTypeBuildpack))
          ∨ (Cmd_Run w cmd = None
             ∧ match fst r with inl e => plain e | inr _ => True end))).
Proof.
  intros r prep. subst r. unfold Build.
  destruct (preparePaths_log b (adaptPlan b plan) config [])
    as [(msg & Hm & H)|[(msg & Hm1 & Hm2 & H)
       |(Hm1 & Hm2 & res & H & [->|[msg ->]])]];
    simpl in H.
  - rewrite (bind_err _ _ _ _ _ H). left.
    exists (ExternalError msg). repeat split; try done.
    + by exists (tail prep).
    + right; left. by rewrite Hm.
  - rewrite (bind_err _ _ _ _ _ H). left.
    exists (ExternalError msg). repeat split; try done.
    + by exists [EvWriteTOML (bpPlanPathOf w b config) (adaptPlan b plan)].
    + right; right. by rewrite Hm2.
  - rewrite (bind_ok _ _ _ _ _ H). cbn [fst snd]. fold prep.
    destruct (runBuildCmd_log b (bpLayersDirOf w b config)
                (bpPlanPathOf w b config) config prep)
      as [[msg Hr]|(cmd & [[Hrun Hr]|(root & Hrun & Hr)])].
    + rewrite (bind_err _ _ _ _ _ Hr). left.
      exists (ExternalError msg). repeat split; try done. by left.
    + rewrite (bind_ok _ _ _ _ _ Hr).
      destruct (setupEnv_log (bpLayersDirOf w b config)
                  (prep ++ [EvRun cmd])) as (r & envs & Hs & Henvs & Hplain).
      right. exists cmd, envs. rewrite <- app_assoc in Hs.
      destruct r as [e|[]].
      { rewrite (bind_err _ _ _ _ _ Hs). eauto. }
      rewrite (bind_ok _ _ _ _ _ Hs). unfold lift.
      destruct (readOutputFiles _ _ _ _ _) eqn:Hread; simpl.
      * split; [done|]. split; [done|]. right. split; [done|].
        by eapply readOutputFiles_plain.
      * eauto.
    + rewrite (bind_err _ _ _ _ _ Hr). right. exists cmd, [].
      split; [done|]. split; [done|]. left. eauto.
  - rewrite (bind_err _ _ _ _ _ H). left.
    exists (ExternalError msg). repeat split; try done. by left.
Qed.

End log.

(** ** The claims on the calls of [Build] *)

Lemma only_one_run (prep envs : list Event) (cmd cmd' : Cmd) :
  Forall not_run prep → Forall is_env envs →
  EvRun cmd' ∈ prep ++ [EvRun cmd] ++ envs → cmd' = cmd.
Proof.
  rewrite !Forall_forall. intros Hprep Henvs.
  intros [Hin|[Hin|Hin]%elem_of_app]%elem_of_app.
  - by apply Hprep in Hin.
  - by apply list_elem_of_singleton in Hin as [= ->].
  - by apply Henvs in Hin.
Qed.

(** C9: [Build] fails with a [*lifecycle.Error] exactly when the child it
    spawned failed: the error then has the buildpack kind and the child's
    error as its root; a failure of validation, of the file system or of
    the [BuildEnv] never yields it. *)
Theorem buildpack_error_iff_child_failed (w : World)
    (b : DefaultBuildpackTOML) (plan : BuildpackPlan) (config : BuildConfig)
    (root : string) (ty : ErrType) :
  fst (Build w b plan config []) = inl (LifecycleError root ty)
  ↔ ty = ErrTypeBuildpack
    ∧ ∃ cmd, EvRun cmd ∈ snd (Build w b plan config [])
             ∧ Cmd_Run w cmd = Some root.
Proof.
  destruct ty.
  destruct (Build_log w b plan config)
    as [(e & He & Hplain & Hpre & _)
       |(cmd & envs & Hlog & Henvs & Hcases)].
  - split.
    + rewrite He. intros [= ->]. done.
    + intros (_ & cmd & Hin & _). exfalso.
      destruct Hpre as [rest Hpre].
      assert (EvRun cmd ∈ [EvMkdirAll (bpLayersDirOf w b config);
                           EvMkdirAll (bpPlanDirOf w b config);
                           EvWriteTOML (bpPlanPathOf w b config)
                                       (adaptPlan b plan)]) as Hin'
        by (rewrite Hpre; apply elem_of_app; by left).
      rewrite !elem_of_cons, elem_of_nil in Hin'.
      by destruct Hin' as [?|[?|[?|[]]]].
  - assert (∀ cmd', EvRun cmd' ∈ snd (Build w b plan config []) →
                    cmd' = cmd) as Honly.
    { intros cmd'. rewrite Hlog. apply only_one_run; [|done].
      by repeat constructor. }
    destruct Hcases as [(root' & Hrun & Hr)|[Hrun Hr]]; split.
    + rewrite Hr. intros ?; simplify_eq. split; [done|]. exists cmd.
      split; [|done]. rewrite Hlog. rewrite !elem_of_app, elem_of_cons.
      right; left; by left.
    + intros (_ & cmd' & Hin & Hrun'). apply Honly in Hin as ->.
      rewrite Hr. congruence.
    + intros Hb. by rewrite Hb in Hr.
    + intros (_ & cmd' & Hin & Hrun'). apply Honly in Hin as ->. congruence.
Qed.

Lemma buildpack_error_iff_child_failed_witness :
  fst (Build scenarios.failingWorld (scenarios.bpTOML api_0_5)
         {| Entries := [] |} scenarios.config [])
  = inl (LifecycleError "exit status 1" ErrTypeBuildpack).
Proof.
  apply (proj2 (buildpack_error_iff_child_failed scenarios.failingWorld
                  (scenarios.bpTOML api_0_5) {| Entries := [] |}
                  scenarios.config "exit status 1" ErrTypeBuildpack)).
  split; [reflexivity|].
  eexists. split; [|vm_compute; reflexivity].
  vm_compute. do 3 apply list_elem_of_further. apply list_elem_of_here.
Defined.

(** C7: for API 0.2, the plan that [Build] serializes to [plan.toml]
    has, at the place of every input entry whose metadata has a version
    and whose top-level version is empty, the same entry with the
    metadata version as its top-level version; the plan is serialized
    whenever the two directories could be made, and a child that is run
    is run right after it. *)
Theorem API_0_2_plan_gets_metadata_version (w : World)
    (b : DefaultBuildpackTOML) (plan : BuildpackPlan)
    (config : BuildConfig) :
  api_Equal (API b) api_0_2 = true →
  (∀ path written,
     EvWriteTOML path written ∈ snd (Build w b plan config []) →
     length (Entries written) = length (Entries plan)
     ∧ ∀ i entry version,
         Entries plan !! i = Some entry →
         Require_Metadata entry !! "version" = Some version →
         Require_Version entry = "" →
         Entries written !! i
         = Some {| Require_Name := Require_Name entry;
                   Require_Version := Sprintf_v version;
                   Require_Metadata := Require_Metadata entry |})
  ∧ (MkdirAll w (bpLayersDirOf w b config) = None →
     MkdirAll w (bpPlanDirOf w b config) = None →
     ∃ written,
       EvWriteTOML (bpPlanPathOf w b config) written
       ∈ snd (Build w b plan config []))
  ∧ (∀ cmd,
       EvRun cmd ∈ snd (Build w b plan config []) →
       ∃ written envs,
         snd (Build w b plan config [])
         = [EvMkdirAll (bpLayersDirOf w b config);
            EvMkdirAll (bpPlanDirOf w b config);
            EvWriteTOML (bpPlanPathOf w b config) written;
            EvRun cmd] ++ envs).
Proof.
  intros Hapi.
  assert (adaptPlan b plan
          = {| Entries := map convertMetadataToVersion (Entries plan) |})
    as Hadapt by (unfold adaptPlan; by rewrite Hapi).
  assert (∀ path written,
            EvWriteTOML path written ∈ snd (Build w b plan config []) →
            written = adaptPlan b plan) as Hwritten.
  { intros path written.
    destruct (Build_log w b plan config)
      as [(e & _ & _ & [rest Hpre] & _)|(cmd & envs & -> & Henvs & _)].
    - intros Hin.
      assert (EvWriteTOML path written
              ∈ [EvMkdirAll (bpLayersDirOf w b config);
                 EvMkdirAll (bpPlanDirOf w b config);
                 EvWriteTOML (bpPlanPathOf w b config) (adaptPlan b plan)])
        as Hin' by (rewrite Hpre; apply elem_of_app; by left).
      rewrite !elem_of_cons, elem_of_nil in Hin'.
      destruct Hin' as [?|[?|[?|[]]]]; by simplify_eq.
    - rewrite !elem_of_app, !elem_of_cons, !elem_of_nil.
      intros [[?|[?|[?|[]]]]|[[?|[]]|Hin]]; simplify_eq; try done.
      rewrite Forall_forall in Henvs. by apply Henvs in Hin. }
  split; [|split].
  - intros path written ->%Hwritten. rewrite Hadapt. cbn [Entries].
    split; [by rewrite length_map|].
    intros i entry version Hi Hm Hv.
    rewrite list_lookup_fmap, Hi. simpl.
    unfold convertMetadataToVersion. rewrite Hm. by rewrite decide_True.
  - intros Hm1 Hm2.
    exists (adaptPlan b plan).
    destruct (Build_log w b plan config)
      as [(e & _ & _ & _ & [->|[?|?]])|(cmd & envs & -> & _)]; try done.
    + rewrite !elem_of_cons. by right; right; left.
    + rewrite elem_of_app, !elem_of_cons. by left; right; right; left.
  - intros cmd' Hin. exists (adaptPlan b plan).
    destruct (Build_log w b plan config)
      as [(e & _ & _ & [rest Hpre] & _)|(cmd & envs & Hlog & Henvs & _)].
    + exfalso.
      assert (EvRun cmd'
              ∈ [EvMkdirAll (bpLayersDirOf w b config);
                 EvMkdirAll (bpPlanDirOf w b config);
                 EvWriteTOML (bpPlanPathOf w b config) (adaptPlan b plan)])
        as Hin' by (rewrite Hpre; apply elem_of_app; by left).
      rewrite !elem_of_cons, elem_of_nil in Hin'.
      by destruct Hin' as [?|[?|[?|[]]]].
    + exists envs. rewrite Hlog in Hin.
      apply only_one_run in Hin as ->; [done| |done].
      by repeat constructor.
Qed.

Lemma API_0_2_plan_gets_metadata_version_witness :
  ∃ path written,
    EvWriteTOML path written
    ∈ snd (Build scenarios.echoWorld (scenarios.bpTOML api_0_2)
             scenarios.metadataPlan scenarios.config [])
    ∧ Entries written !! 0
      = Some (scenarios.require "some-dep" "v1"
                {[ "version" := MString "v1" ]}).
Proof.
  exists "launch/app/A/plan.toml".
  exists {| Entries := [scenarios.require "some-dep" "v1"
                          {[ "version" := MString "v1" ]}] |}.
  assert (EvWriteTOML "launch/app/A/plan.toml"
            {| Entries := [scenarios.require "some-dep" "v1"
                             {[ "version" := MString "v1" ]}] |}
          ∈ snd (Build scenarios.echoWorld (scenarios.bpTOML api_0_2)
                   scenarios.metadataPlan scenarios.config [])) as Hin.
  { vm_compute. do 2 apply list_elem_of_further. apply list_elem_of_here. }
  split; [exact Hin|].
  refine (proj2 (proj1 (API_0_2_plan_gets_metadata_version
                          scenarios.echoWorld (scenarios.bpTOML api_0_2)
                          scenarios.metadataPlan scenarios.config _)
                   _ _ Hin)
            0 (scenarios.require "some-dep" "" {[ "version" := MString "v1" ]})
            (MString "v1") _ _ _).
  - vm_compute. reflexivity.
  - reflexivity.
  - vm_compute. reflexivity.
  - reflexivity.
Defined.

(** ** The build layers and the environment *)

Lemma String_leb_iff (a b : string) :
  String.leb a b = true ↔ a = b ∨ OrderedTypeEx.String_as_OT.lt a b.
Proof.
  unfold String.leb.
  pose proof (OrderedTypeEx.String_as_OT.cmp_eq a b) as Heq.
  pose proof (OrderedTypeEx.String_as_OT.cmp_lt a b) as Hlt.
  unfold OrderedTypeEx.String_as_OT.cmp in *.
  destruct (String.compare a b); split; try tauto.
  - done.
  - intros [H|H]; [by apply Heq in H | by apply Hlt in H].
Qed.

#[local] Instance name_le_trans : Transitive name_le.
Proof.
  intros a b c. unfold name_le. rewrite !String_leb_iff.
  intros [->|Hab] [<-|Hbc]; eauto.
  right. by eapply OrderedTypeEx.String_as_OT.lt_trans.
Qed.

#[local] Instance name_le_total : Total name_le.
Proof. intros a b. apply String.leb_total. Qed.

Lemma StronglySorted_filter {A} (R : relation A) (f : A → bool) l :
  StronglySorted R l → StronglySorted R (List.filter f l).
Proof.
  induction 1 as [|a l Hl IH Ha]; simpl; [constructor|].
  destruct (f a); [|done]. constructor; [done|].
  rewrite Forall_forall in *. intros x Hx. apply Ha.
  apply list_elem_of_In in Hx. apply filter_In in Hx as [Hx _].
  by apply list_elem_of_In.
Qed.

Section layers.
Variable w : World.

(** [ioutil.ReadDir] lists a directory in the order of the names. *)
Lemma ioutil_ReadDir_sorted dir files :
  ioutil_ReadDir w dir = DirEntries files → StronglySorted name_le files.
Proof.
  unfold ioutil_ReadDir. destruct (Listing w dir); [|done..].
  intros [= <-]. apply StronglySorted_merge_sort; apply _.
Qed.

Lemma bind_ext {A B} (m : M A) (k k' : A → M B) log :
  (∀ a log', k a log' = k' a log') → bind m k log = bind m k' log.
Proof. intros H. unfold bind. destruct (m log) as [[e|a] log']; eauto. Qed.

Lemma runCalls_app calls calls' log :
  runCalls w (calls ++ calls') log
  = bind (runCalls w calls) (λ _, runCalls w calls') log.
Proof.
  revert log. induction calls as [|c calls IH]; intros log; [done|].
  simpl. unfold bind.
  destruct (env_call w c log) as [[e|[]] log1]; [done|].
  rewrite IH. done.
Qed.

(** The first pass of [setupEnv]. *)
Lemma eachDir_loop_roots dir files log :
  eachDir_loop dir
    (λ path, if negb (isBuild w (path +:+ ".toml")) then ret tt
             else env_call w (AddRootDir path)) files log
  = runCalls w (map AddRootDir (buildDirs w dir files)) log.
Proof.
  revert log. unfold buildDirs, buildLayers.
  induction files as [|f files IH]; intros log; [done|]. simpl.
  destruct (FileInfo_IsDir f); simpl; [|apply IH].
  destruct (isBuild w _); simpl.
  - by apply bind_ext.
  - apply IH.
Qed.

(** The second pass of [setupEnv]. *)
Lemma eachDir_loop_envs dir files log :
  eachDir_loop dir
    (λ path, if negb (isBuild w (path +:+ ".toml")) then ret tt
             else env_call w (AddEnvDir (filepath_Join [path; "env"])) ;;;
                  env_call w (AddEnvDir (filepath_Join [path; "env.build"])))
    files log
  = runCalls w (flat_map envDirCalls (buildDirs w dir files)) log.
Proof.
  revert log. unfold buildDirs, buildLayers.
  induction files as [|f files IH]; intros log; [done|]. simpl.
  destruct (FileInfo_IsDir f); simpl; [|apply IH].
  destruct (isBuild w _); simpl; [|apply IH].
  unfold bind.
  destruct (env_call w _ log) as [[e|[]] log1]; [done|].
  destruct (env_call w _ log1) as [[e|[]] log2]; [done|]. apply IH.
Qed.

End layers.

(** C4, as the code has it: [setupEnv] makes two passes over the build
    layers of the listing, which [ioutil.ReadDir] gives in the order of
    their names: first [AddRootDir] for every build layer, then
    [AddEnvDir] of its [env] and of its [env.build] for every build
    layer; the first call that fails ends it and its error is returned. *)
Theorem setupEnv_makes_two_passes (w : World) (layersDir : string)
    (files : list FileInfo) (log : list Event) :
  ioutil_ReadDir w layersDir = DirEntries files →
  setupEnv w layersDir log
  = runCalls w (map AddRootDir (buildDirs w layersDir files)
                ++ flat_map envDirCalls (buildDirs w layersDir files)) log
  ∧ StronglySorted name_le (buildLayers w layersDir files).
Proof.
  intros Hdir. split.
  - rewrite runCalls_app. unfold setupEnv, eachDir. rewrite Hdir.
    unfold bind. rewrite eachDir_loop_roots.
    destruct (runCalls w _ log) as [[e|[]] log1]; [done|].
    apply eachDir_loop_envs.
  - apply StronglySorted_filter. by eapply ioutil_ReadDir_sorted.
Qed.

Lemma setupEnv_makes_two_passes_witness :
  snd (setupEnv scenarios.layersWorld "launch/A" [])
  = map EvEnv [AddRootDir "launch/A/layer1"; AddRootDir "launch/A/layer3";
               AddEnvDir "launch/A/layer1/env";
               AddEnvDir "launch/A/layer1/env.build";
               AddEnvDir "launch/A/layer3/env";
               AddEnvDir "launch/A/layer3/env.build"].
Proof.
  rewrite (proj1 (setupEnv_makes_two_passes scenarios.layersWorld "launch/A"
                    (merge_sort name_le scenarios.layers) []
                    eq_refl)).
  vm_compute. reflexivity.
Defined.

(** C4, as the specification words it, fails: with two build layers the
    calls are not made layer by layer. *)
Lemma setupEnv_not_layer_by_layer :
  snd (setupEnv scenarios.layersWorld "launch/A" [])
  ≠ snd (setupEnv_as_specified scenarios.layersWorld "launch/A" [])
  ∧ snd (setupEnv_as_specified scenarios.layersWorld "launch/A" [])
    = map EvEnv [AddRootDir "launch/A/layer1";
                 AddEnvDir "launch/A/layer1/env";
                 AddEnvDir "launch/A/layer1/env.build";
                 AddRootDir "launch/A/layer3";
                 AddEnvDir "launch/A/layer3/env";
                 AddEnvDir "launch/A/layer3/env.build"].
Proof. split; [vm_compute; discriminate | vm_compute; reflexivity]. Qed.

End LifecycleFacts.

(** * Properties of the run-image mirror selection *)

Module PlatformFacts.
Import platform.

Section selection.
Context {Keychain : Type}.
Variable DefaultKeychain : list string → string + Keychain.
Variable RegistryStr : string → option string.
Variable checkReadAccess : string → Keychain → bool.
Variable keychain : Keychain.

Lemma byRegistry_find reg images :
  byRegistry RegistryStr reg images checkReadAccess keychain
  = default "" (List.find (onRegistry RegistryStr checkReadAccess keychain
                              reg) images).
Proof.
  induction images as [|image images IH]; [done|].
  simpl. unfold onRegistry at 1.
  destruct (RegistryStr image) as [r|] eqn:Hr.
  - destruct (decide (reg = r)) as [->|Hne].
    + rewrite bool_decide_eq_true_2 by done. simpl.
      by destruct (checkReadAccess image keychain).
    + rewrite bool_decide_eq_false_2 by congruence. done.
  - by rewrite bool_decide_eq_false_2.
Qed.

Lemma firstAccessible_find images :
  firstAccessible images checkReadAccess keychain
  = match List.find (λ c, checkReadAccess c keychain) images with
    | Some c => Selected c
    | None => Failed "failed to find accessible run image"
    end.
Proof.
  induction images as [|image images IH]; [done|].
  simpl. by destruct (checkReadAccess image keychain).
Qed.

End selection.

(** C3, as the code has it: with run-image metadata whose image and
    mirrors are not empty strings, and a keychain for them, the selection
    is the first candidate (the image, then the mirrors in their order)
    that is on the target registry and passes the read-access probe;
    without one, the first candidate that passes the probe; without one,
    the failure "failed to find accessible run image". *)
Theorem best_mirror_is_first_accessible_on_registry {Keychain : Type}
    (DefaultKeychain : list string → string + Keychain)
    (RegistryStr : string → option string)
    (targetRegistry : string) (runImageMD : RunImageForExport)
    (checkReadAccess : string → Keychain → bool) (keychain : Keychain) :
  Image runImageMD ≠ "" →
  Forall (λ mirror, mirror ≠ "") (Mirrors runImageMD) →
  DefaultKeychain (Image runImageMD :: Mirrors runImageMD) = inr keychain →
  BestRunImageMirrorFor DefaultKeychain RegistryStr
    targetRegistry runImageMD checkReadAccess
  = match List.find (onRegistry RegistryStr checkReadAccess keychain
                       targetRegistry)
                    (Image runImageMD :: Mirrors runImageMD) with
    | Some c => Selected c
    | None =>
        match List.find (λ c, checkReadAccess c keychain)
                        (Image runImageMD :: Mirrors runImageMD) with
        | Some c => Selected c
        | None => Failed "failed to find accessible run image"
        end
    end.
Proof.
  intros Himage Hmirrors Hkeychain. unfold BestRunImageMirrorFor.
  rewrite decide_False by done.
  change ([Image runImageMD] ++ Mirrors runImageMD)
    with (Image runImageMD :: Mirrors runImageMD).
  rewrite Hkeychain, byRegistry_find, firstAccessible_find.
  destruct (List.find (onRegistry _ _ _ _) _) as [c|] eqn:Hfind; simpl.
  - apply find_some in Hfind as [Hin _].
    rewrite decide_True; [done|].
    destruct Hin as [<-|Hin]; [done|].
    rewrite Forall_forall in Hmirrors. apply Hmirrors.
    by apply list_elem_of_In.
  - done.
Qed.

Lemma best_mirror_is_first_accessible_on_registry_witness :
  BestRunImageMirrorFor scenarios.anyKeychain scenarios.registryOf
    "r.example" scenarios.runImage
    (scenarios.readable ["other.example/run"; "r.example/run"])
  = Selected "r.example/run".
Proof.
  rewrite (best_mirror_is_first_accessible_on_registry
             scenarios.anyKeychain scenarios.registryOf "r.example"
             scenarios.runImage
             (scenarios.readable ["other.example/run"; "r.example/run"]) tt).
  - vm_compute. reflexivity.
  - vm_compute. discriminate.
  - repeat constructor. vm_compute. discriminate.
  - reflexivity.
Defined.

(** C3, as the specification words it, fails: a candidate on the target
    registry that the probe refuses is passed over, where the wording
    selects it. *)
Lemma mirror_on_registry_is_probed :
  BestRunImageMirrorFor scenarios.anyKeychain scenarios.registryOf
    "r.example" scenarios.runImage (scenarios.readable ["other.example/run"])
  ≠ selection_as_specified scenarios.registryOf "r.example"
      ["other.example/run"; "r.example/run"]
      (scenarios.readable ["other.example/run"]) tt
  ∧ BestRunImageMirrorFor scenarios.anyKeychain scenarios.registryOf
      "r.example" scenarios.runImage
      (scenarios.readable ["other.example/run"])
    = Selected "other.example/run"
  ∧ selection_as_specified scenarios.registryOf "r.example"
      ["other.example/run"; "r.example/run"]
      (scenarios.readable ["other.example/run"]) tt
    = Selected "r.example/run".
Proof.
  split; [vm_compute; discriminate|]. split; vm_compute; reflexivity.
Qed.

End PlatformFacts.

(** * Properties of the build environment *)

Module EnvFacts.
Import env.

Lemma listed_elem_of (wks : list string) (k : string) :
  listed wks k = bool_decide (k ∈ wks).
Proof.
  induction wks as [|wk wks IH]; [done|]. cbn [listed].
  destruct (decide (wk = k)) as [->|Hne].
  - symmetry. apply bool_decide_eq_true. by left.
  - rewrite IH. apply bool_decide_ext. rewrite elem_of_cons.
    split; [by right | by intros [?|?]].
Qed.

(** [isNotAllowlisted] lets through the eight names of the allowlist and
    of the root-dir map, and no other. *)
Lemma isNotAllowlisted_allowed_names (k : string) :
  isNotAllowlisted k = negb (bool_decide (k ∈ allowed_names)).
Proof.
  unfold isNotAllowlisted.
  replace (map_to_list POSIXBuildEnv)
    with [("include", ["CPATH"]); ("bin", ["PATH"]);
          ("lib", ["LD_LIBRARY_PATH"; "LIBRARY_PATH"]);
          ("pkgconfig", ["PKG_CONFIG_PATH"])]
    by (vm_compute; reflexivity).
  cbn [listed_in_any]. rewrite !listed_elem_of.
  unfold BuildEnvAllowlist, allowed_names.
  repeat case_bool_decide; try done; exfalso;
    repeat match goal with
      | H : context [_ ∈ _ :: _] |- _ => rewrite elem_of_cons in H
      | H : context [_ ∈ []] |- _ => rewrite elem_of_nil in H
      end; tauto.
Qed.

(** One step of the loop of [varsFromEnviron]. *)
Lemma varsFromEnviron_lookup (removeKey : string → bool)
    (environ : list string) (acc : gmap string string) (k : string) :
  fold_left (λ vars kv,
               match splitN2 kv with
               | Some (k, v) => if removeKey k then vars else <[k := v]> vars
               | None => vars
               end) environ acc !! k
  = if removeKey k then acc !! k
    else match Getenv environ k with
         | Some v => Some v
         | None => acc !! k
         end.
Proof.
  revert acc. induction environ as [|kv environ IH]; intros acc.
  - simpl. by destruct (removeKey k).
  - cbn [fold_left Getenv]. rewrite IH.
    destruct (removeKey k) eqn:Hk.
    + destruct (splitN2 kv) as [[k' v]|]; [|done].
      destruct (removeKey k') eqn:Hk'; [done|].
      rewrite lookup_insert_ne; [done|]. congruence.
    + destruct (Getenv environ k); [done|].
      destruct (splitN2 kv) as [[k' v]|]; [|done].
      destruct (decide (k' = k)) as [->|Hne].
      * by rewrite Hk, lookup_insert_eq.
      * destruct (removeKey k'); [done|]. by rewrite lookup_insert_ne.
Qed.

(** C10: the variables of [NewBuildEnv] are the caller's variables with
    one of the eight allowed names, with the caller's values; so two
    caller environments that agree on those names give the same build
    environment, whatever else they hold. *)
Theorem NewBuildEnv_keeps_only_allowed_names (environ : list string) :
  (∀ k, Vars (NewBuildEnv environ) !! k
        = if bool_decide (k ∈ allowed_names) then Getenv environ k
          else None)
  ∧ (∀ environ',
       (∀ k, k ∈ allowed_names → Getenv environ k = Getenv environ' k) →
       NewBuildEnv environ = NewBuildEnv environ').
Proof.
  assert (∀ environ k,
            Vars (NewBuildEnv environ) !! k
            = if bool_decide (k ∈ allowed_names) then Getenv environ k
              else None) as Hlookup.
  { intros env0 k. unfold NewBuildEnv, varsFromEnviron. cbn [Vars].
    rewrite varsFromEnviron_lookup, isNotAllowlisted_allowed_names.
    rewrite lookup_empty.
    destruct (bool_decide _); simpl; [|done]. by destruct (Getenv env0 k). }
  split; [apply Hlookup|].
  intros environ' Hagree.
  assert (Vars (NewBuildEnv environ) = Vars (NewBuildEnv environ')) as Hvars.
  { apply map_eq. intros k. rewrite !Hlookup.
    case_bool_decide; [by apply Hagree | done]. }
  unfold NewBuildEnv in *. cbn [Vars] in Hvars. by rewrite Hvars.
Qed.

Lemma NewBuildEnv_keeps_only_allowed_names_witness :
  NewBuildEnv scenarios.callerEnviron = NewBuildEnv scenarios.otherEnviron
  ∧ Vars (NewBuildEnv scenarios.callerEnviron) !! "SECRET_TOKEN" = None
  ∧ Vars (NewBuildEnv scenarios.callerEnviron) !! "HOME" = Some "/home/cnb".
Proof.
  pose proof (NewBuildEnv_keeps_only_allowed_names scenarios.callerEnviron)
    as [Hlookup Hsame].
  split; [|split].
  - apply Hsame. intros k Hk. unfold allowed_names in Hk.
    repeat (apply elem_of_cons in Hk as [->|Hk]; [vm_compute; reflexivity|]).
    by apply elem_of_nil in Hk.
  - rewrite Hlookup. vm_compute. reflexivity.
  - rewrite Hlookup. vm_compute. reflexivity.
Defined.

End EnvFacts.

(** * Further properties of the build executor *)

Module LifecycleMore.
Import lifecycle LifecycleFacts.

(** ** Validation *)

(** [validateUnmet] returns no error exactly when every unmet entry has a
    name, and that of a plan entry. *)
Theorem validateUnmet_accepts_iff (unmet : list Unmet)
    (plan : BuildpackPlan) :
  validateUnmet unmet plan = None ↔ Forall (valid_unmet plan) unmet.
Proof.
  induction unmet as [|u unmet IH]; simpl.
  - split; [constructor | done].
  - rewrite Forall_cons. unfold valid_unmet at 1.
    destruct (decide (Unmet_Name u = "")) as [He|He].
    { split; [done | by intros [[? _] _]]. }
    destruct (found_in _ _) eqn:Hfound; simpl.
    + apply found_in_elem_of in Hfound. rewrite IH. tauto.
    + split; [done|]. intros [[_ Hin] _].
      apply found_in_elem_of in Hin. congruence.
Qed.

(** The error of [validateUnmet] is about the first entry that is not
    valid: that its name is required when it has none, else that its
    name, quoted, must match a requested dependency. *)
Theorem validateUnmet_reports_first_invalid (ok rest : list Unmet)
    (u : Unmet) (plan : BuildpackPlan) :
  Forall (valid_unmet plan) ok →
  ¬ valid_unmet plan u →
  validateUnmet (ok ++ u :: rest) plan
  = Some (NewError
            (if decide (Unmet_Name u = "") then "unmet.name is required"
             else "unmet.name '" +:+ Unmet_Name u
                  +:+ "' must match a requested dependency")).
Proof.
  intros Hok Hu. induction Hok as [|v ok [Hv Hin] Hok IH]; simpl.
  - destruct (decide (Unmet_Name u = "")); [done|].
    destruct (found_in _ _) eqn:Hfound; simpl; [|done].
    apply found_in_elem_of in Hfound. by destruct Hu.
  - rewrite decide_False by done.
    apply found_in_elem_of in Hin. by rewrite Hin.
Qed.

Lemma validateUnmet_reports_first_invalid_witness :
  validateUnmet [ {| Unmet_Name := "some-unmet-dep" |};
                  {| Unmet_Name := "unknown-dep" |};
                  {| Unmet_Name := "" |} ] scenarios.unmetPlan
  = Some (NewError
            "unmet.name 'unknown-dep' must match a requested dependency").
Proof.
  apply (validateUnmet_reports_first_invalid
           [ {| Unmet_Name := "some-unmet-dep" |} ] [ {| Unmet_Name := "" |} ]
           {| Unmet_Name := "unknown-dep" |} scenarios.unmetPlan).
  - constructor; [|constructor]. split.
    + vm_compute. discriminate.
    + apply (bool_decide_unpack _). vm_compute. exact I.
  - intros [_ Hin]. revert Hin. apply (bool_decide_unpack _).
    vm_compute. exact I.
Defined.

(** [validateBOM] for API 0.5 and above returns no error exactly when no
    entry has a top-level version, and else names the first entry that
    has one. *)
Theorem validateBOM_new_accepts_iff (bom : list BOMEntry)
    (bpAPI : APIVersion) :
  ¬ (api_Compare bpAPI api_0_5 < 0)%Z →
  (validateBOM bom bpAPI = None
   ↔ Forall (λ entry, Require_Version (BOMEntry_Require entry) = "") bom)
  ∧ (∀ ok entry rest,
       bom = ok ++ entry :: rest →
       Forall (λ entry, Require_Version (BOMEntry_Require entry) = "") ok →
       Require_Version (BOMEntry_Require entry) ≠ "" →
       validateBOM bom bpAPI
       = Some (NewError ("bom entry '"
                         +:+ Require_Name (BOMEntry_Require entry)
                         +:+ "' has a top level version which is deprecated"))).
Proof.
  intros Hapi. unfold validateBOM. rewrite decide_False by done. split.
  - induction bom as [|entry bom IH]; simpl.
    + split; [constructor | done].
    + rewrite Forall_cons. case_bool_decide as Hv.
      * split; [done | by intros [? _]].
      * rewrite IH.
        destruct (decide (Require_Version (BOMEntry_Require entry) = ""));
          tauto.
  - intros ok entry rest -> Hok Hv.
    induction Hok as [|e ok He Hok IH]; simpl.
    + by rewrite bool_decide_eq_true_2.
    + by rewrite bool_decide_eq_false_2 by (by intros ?).
Qed.

Lemma validateBOM_new_accepts_iff_witness :
  validateBOM [scenarios.bom "some-dep" "" ∅; scenarios.versionedEntry]
              api_0_5
  = Some (NewError
            "bom entry 'some-dep' has a top level version which is deprecated").
Proof.
  refine (proj2 (validateBOM_new_accepts_iff
                   [scenarios.bom "some-dep" "" ∅; scenarios.versionedEntry]
                   api_0_5 _)
            [scenarios.bom "some-dep" "" ∅] scenarios.versionedEntry []
            eq_refl _ _).
  - vm_compute. discriminate.
  - by repeat constructor.
  - vm_compute. discriminate.
Defined.

(** [validateBOM] for an API below 0.5 returns no error exactly when, in
    every entry, a top-level version beside a [metadata.version] is equal
    to it; an entry without [metadata.version] always passes. *)
Theorem validateBOM_old_accepts_iff (bom : list BOMEntry)
    (bpAPI : APIVersion) :
  (api_Compare bpAPI api_0_5 < 0)%Z →
  validateBOM bom bpAPI = None ↔ Forall versions_agree bom.
Proof.
  intros Hapi. unfold validateBOM. rewrite decide_True by done.
  induction bom as [|entry bom IH]; simpl.
  - split; [constructor | done].
  - rewrite Forall_cons. unfold versions_agree at 1.
    destruct (Require_Metadata (BOMEntry_Require entry) !! "version")
      as [version|] eqn:Hm.
    + destruct (decide (Require_Version (BOMEntry_Require entry) = ""))
        as [Hv|Hv].
      { rewrite bool_decide_eq_false_2 by (by intros ?). simpl.
        rewrite IH. split; [|tauto]. intros ?. split; [|done].
        intros ? _. by left. }
      rewrite (bool_decide_eq_true_2 _ Hv). simpl.
      destruct (decide (Require_Version (BOMEntry_Require entry)
                        = Sprintf_v version)) as [Heq|Hne].
      * rewrite bool_decide_eq_false_2 by (by intros ?).
        rewrite IH. split; [|tauto]. intros ?. split; [|done].
        intros ? [= <-]. by right.
      * rewrite bool_decide_eq_true_2 by done. split; [done|].
        intros [Hagree _]. by destruct (Hagree version eq_refl).
    + rewrite IH. split; [|tauto]. intros ?. split; [|done]. by intros ? ?.
Qed.

Lemma validateBOM_old_accepts_iff_witness :
  validateBOM [scenarios.bom "some-deprecated-bp-dep" "v1" ∅;
               scenarios.bom "some-dep" "" {[ "version" := MString "v1" ]};
               scenarios.bom "n" "3" {[ "version" := MInteger 3 ]}]
              {| Major := 0; Minor := 4 |} = None.
Proof.
  apply validateBOM_old_accepts_iff; [vm_compute; reflexivity|].
  repeat (constructor;
          [intros version Hm; vm_compute in Hm;
           first [discriminate Hm
                 | injection Hm as <-; vm_compute;
                   first [by left | by right]]|]).
  constructor.
Defined.

(** ** Filtering the plan *)

(** [BuildpackPlan.filter] with no unmet entry keeps the plan; filtering
    twice is filtering once by both lists, in either order. *)
Theorem filter_composes (p : BuildpackPlan) (unmet unmet' : list Unmet) :
  filter p [] = p
  ∧ filter (filter p unmet) unmet' = filter p (unmet ++ unmet')
  ∧ filter p (unmet ++ unmet') = filter p (unmet' ++ unmet).
Proof.
  assert (∀ us us' name,
            containsName (us ++ us') name
            = containsName us name || containsName us' name) as Happ.
  { intros us us' name. induction us as [|u us IH]; [done|]. simpl.
    by destruct (decide (Unmet_Name u = name)). }
  destruct p as [entries]. unfold filter. cbn [Entries].
  split; [|split]; f_equal.
  - induction entries as [|e entries IH]; [done|]. simpl. by rewrite IH.
  - induction entries as [|e entries IH]; [done|]. simpl.
    rewrite Happ.
    destruct (containsName unmet (Require_Name e)) eqn:H1; simpl; [done|].
    rewrite IH. by destruct (containsName unmet' (Require_Name e)).
  - induction entries as [|e entries IH]; [done|]. simpl.
    rewrite !Happ, IH. by rewrite orb_comm.
Qed.

(** ** What a build returns *)

Section results.
Variable w : World.

Lemma filter_entries_nil entries : filter_entries entries [] = entries.
Proof. induction entries as [|e entries IH]; [done|]. simpl. by rewrite IH. Qed.

(** What any successful read went through, whatever the API. *)
Lemma readOutputFiles_launch b d p plan br :
  readOutputFiles w b d p plan = inr br →
  ∃ launch,
    decodeOptional (DecodeLaunch w (filepath_Join [d; "launch.toml"]))
                   emptyLaunchTOML = inr launch
    ∧ Labels br = LaunchTOML_Labels launch
    ∧ Slices br = LaunchTOML_Slices launch
    ∧ Processes br = map (stamp (Info_ID (Buildpack_ b)))
                         (LaunchTOML_Processes launch).
Proof.
  unfold readOutputFiles.
  destruct (decodeOptional (DecodeLaunch _ _) _) as [e|launch]; [done|].
  intros H. exists launch. split; [done|].
  destruct (decide _).
  - destruct (decodeRequired _); [done|].
    destruct (validateBOM _ _); [done|]. by simplify_eq.
  - destruct (decodeOptional (DecodeBuild _ _) _); [done|].
    do 2 (destruct (validateBOM _ _); [done|]).
    destruct (validateUnmet _ _); [done|]. by simplify_eq.
Qed.

End results.

(** A buildpack of API 0.5 or above that writes neither [launch.toml] nor
    [build.toml] gets an empty result in which every entry of the input
    plan is met. *)
Theorem Build_without_output_files (w : World) (b : DefaultBuildpackTOML)
    (plan : BuildpackPlan) (config : BuildConfig) (log : list Event)
    (paths : string * string) (msg msg' : string) :
  ¬ (api_Compare (API b) api_0_5 < 0)%Z →
  fst (upToOutputs w b plan config log) = inr paths →
  launchTOMLOf w b config = DecodeNotExist msg →
  buildTOMLOf w b config = DecodeNotExist msg' →
  fst (Build w b plan config log)
  = inr {| BOM := []; Labels := []; Met := names (Entries plan);
           Processes := []; Slices := [] |}.
Proof.
  intros Hapi Hup Hlaunch Hbuild.
  rewrite (Build_outputs _ _ _ _ _ _ Hup), adaptPlan_new by done.
  unfold readOutputFiles, launchTOMLOf, buildTOMLOf in *.
  rewrite Hlaunch, Hbuild. cbn [decodeOptional].
  rewrite decide_False by done. unfold validateBOM. simpl.
  destruct (decide _); simpl; by rewrite filter_entries_nil.
Qed.

Lemma Build_without_output_files_witness :
  fst (Build scenarios.layersWorld (scenarios.bpTOML api_0_5)
         scenarios.unmetPlan scenarios.config [])
  = inr {| BOM := []; Labels := [];
           Met := ["some-dep"; "some-unmet-dep"];
           Processes := []; Slices := [] |}.
Proof.
  apply (Build_without_output_files scenarios.layersWorld
           (scenarios.bpTOML api_0_5) scenarios.unmetPlan scenarios.config
           [] ("launch/A", "launch/app/A/plan.toml")
           "no such file" "no such file").
  - vm_compute. discriminate.
  - vm_compute. reflexivity.
  - reflexivity.
  - reflexivity.
Defined.

(** For an API below 0.5 the plan file is required: when it cannot be
    decoded, be it because it is not there, [Build] fails with the
    decoder's error, where a missing [launch.toml] is no error. *)
Theorem Build_requires_plan_output (w : World) (b : DefaultBuildpackTOML)
    (plan : BuildpackPlan) (config : BuildConfig) (log : list Event)
    (paths : string * string) (launch : LaunchTOML) (msg : string) :
  (api_Compare (API b) api_0_5 < 0)%Z →
  fst (upToOutputs w b plan config log) = inr paths →
  decodeOptional (launchTOMLOf w b config) emptyLaunchTOML = inr launch →
  planTOMLOf w b config = DecodeNotExist msg
  ∨ planTOMLOf w b config = DecodeError msg →
  fst (Build w b plan config log) = inl (ExternalError msg).
Proof.
  intros Hapi Hup Hlaunch Hplan.
  rewrite (Build_outputs _ _ _ _ _ _ Hup).
  unfold readOutputFiles, launchTOMLOf, planTOMLOf in *.
  rewrite Hlaunch, decide_True by done.
  by destruct Hplan as [->| ->].
Qed.

Lemma Build_requires_plan_output_witness :
  fst (Build scenarios.layersWorld
         (scenarios.bpTOML {| Major := 0; Minor := 4 |})
         scenarios.unmetPlan scenarios.config [])
  = inl (ExternalError "no such file").
Proof.
  apply (Build_requires_plan_output scenarios.layersWorld
           (scenarios.bpTOML {| Major := 0; Minor := 4 |})
           scenarios.unmetPlan scenarios.config []
           ("launch/A", "launch/app/A/plan.toml") emptyLaunchTOML).
  - vm_compute. reflexivity.
  - vm_compute. reflexivity.
  - reflexivity.
  - by left.
Defined.

(** Whatever the API, a returned result has the labels and the slices of
    [launch.toml] as they are, and its processes in their order, each
    with the buildpack's id as its [BuildpackID] and nothing else
    changed. *)
Theorem result_carries_launch_toml (w : World) (b : DefaultBuildpackTOML)
    (plan : BuildpackPlan) (config : BuildConfig) (log : list Event)
    (br : BuildResult) :
  fst (Build w b plan config log) = inr br →
  ∃ launch,
    decodeOptional (launchTOMLOf w b config) emptyLaunchTOML = inr launch
    ∧ Labels br = LaunchTOML_Labels launch
    ∧ Slices br = LaunchTOML_Slices launch
    ∧ length (Processes br) = length (LaunchTOML_Processes launch)
    ∧ ∀ i p,
        LaunchTOML_Processes launch !! i = Some p →
        Processes br !! i
        = Some {| Process_Type := Process_Type p;
                  Process_Command := Process_Command p;
                  Process_Args := Process_Args p;
                  Process_Direct := Process_Direct p;
                  Process_BuildpackID := Info_ID (Buildpack_ b) |}.
Proof.
  intros Hbr. apply Build_result, readOutputFiles_launch in Hbr
    as (launch & Hlaunch & Hlabels & Hslices & Hprocs).
  exists launch. rewrite Hprocs. repeat split; try done.
  - by rewrite length_map.
  - intros i p Hi. by rewrite list_lookup_fmap, Hi.
Qed.

Lemma result_carries_launch_toml_witness :
  ∃ br,
    fst (Build scenarios.processWorld (scenarios.bpTOML api_0_5)
           {| Entries := [] |} scenarios.config []) = inr br
    ∧ Processes br !! 1
      = Some {| Process_Type := "other-type";
                Process_Command := "other-cmd";
                Process_Args := []; Process_Direct := false;
                Process_BuildpackID := "A" |}.
Proof.
  destruct (result_carries_launch_toml scenarios.processWorld
              (scenarios.bpTOML api_0_5) {| Entries := [] |}
              scenarios.config []
              {| BOM := []; Labels := []; Met := [];
                 Processes := map (stamp "A")
                                (LaunchTOML_Processes scenarios.processLaunch);
                 Slices := [] |} eq_refl)
    as (launch & Hlaunch & _ & _ & _ & Hprocs).
  eexists. split; [vm_compute; reflexivity|].
  injection Hlaunch as <-.
  exact (Hprocs 1 _ eq_refl).
Defined.

(** For API 0.5 and above the BOM of a returned result is that of
    [launch.toml], entry by entry: the BOM of [build.toml] is validated
    and left out. For an API below 0.5 it is the rewritten plan, entry by
    entry, and [Met] names the same dependencies in the same order. *)
Theorem result_BOM_source (w : World) (b : DefaultBuildpackTOML)
    (plan : BuildpackPlan) (config : BuildConfig) (log : list Event)
    (br : BuildResult) :
  fst (Build w b plan config log) = inr br →
  if decide (api_Compare (API b) api_0_5 < 0)%Z then
    ∃ planOut,
      planTOMLOf w b config = Decoded planOut
      ∧ map BOMEntry_Require (BOM br) = Entries planOut
      ∧ Met br = map (λ entry, Require_Name (BOMEntry_Require entry))
                     (BOM br)
  else
    ∃ launch,
      decodeOptional (launchTOMLOf w b config) emptyLaunchTOML = inr launch
      ∧ map BOMEntry_Require (BOM br)
        = map BOMEntry_Require (LaunchTOML_BOM launch).
Proof.
  intros Hbr. apply Build_result in Hbr.
  destruct (decide _) as [Hapi|Hapi].
  - apply readOutputFiles_old in Hbr
      as (planOut & Hplan & _ & Hbom & Hmet); [|done].
    exists planOut. unfold planTOMLOf, decodeRequired in *.
    destruct (DecodePlan w _); simplify_eq. split; [done|].
    rewrite Hbom, Hmet. unfold withBuildpack, toBOM, names.
    rewrite <- !list_fmap_compose. split; [|done].
    by rewrite list_fmap_id.
  - apply readOutputFiles_new in Hbr
      as (launch & build & Hlaunch & _ & _ & _ & _ & Hbom & _); [|done].
    exists launch. split; [done|]. rewrite Hbom. unfold withBuildpack.
    by rewrite <- list_fmap_compose.
Qed.

Lemma result_BOM_source_witness :
  ∃ br,
    fst (Build scenarios.unmetWorld (scenarios.bpTOML api_0_5)
           scenarios.unmetPlan scenarios.config []) = inr br
    ∧ map BOMEntry_Require (BOM br)
      = [scenarios.require "some-dep" "" {[ "version" := MString "v1" ]}].
Proof.
  eexists. split; [vm_compute; reflexivity|].
  pose proof (result_BOM_source scenarios.unmetWorld
                (scenarios.bpTOML api_0_5) scenarios.unmetPlan
                scenarios.config [] _ eq_refl) as H.
  destruct (decide _) as [Hapi|_] in H; [by vm_compute in Hapi|].
  destruct H as (launch & Hlaunch & Hbom).
  injection Hlaunch as <-. exact Hbom.
Defined.

(** For an API below 0.5 [build.toml] is not read: its content, or its
    being broken, changes nothing in what [Build] does and returns. For
    API 0.5 and above the plan the child leaves is not read. *)
Theorem Build_reads_one_of_plan_and_build_toml (w : World)
    (b : DefaultBuildpackTOML) (plan : BuildpackPlan) (config : BuildConfig)
    (log : list Event) :
  if decide (api_Compare (API b) api_0_5 < 0)%Z then
    ∀ decode, Build (withDecodeBuild w decode) b plan config log
              = Build w b plan config log
  else
    ∀ decode, Build (withDecodePlan w decode) b plan config log
              = Build w b plan config log.
Proof.
  destruct (decide _) as [Hapi|Hapi]; intros decode;
    rewrite !Build_split;
    [change (upToOutputs (withDecodeBuild w decode) b plan config log)
       with (upToOutputs w b plan config log)
    |change (upToOutputs (withDecodePlan w decode) b plan config log)
       with (upToOutputs w b plan config log)];
    destruct (upToOutputs w b plan config log) as [[e|paths] log']; try done;
    f_equal; unfold readOutputFiles; cbn [DecodeLaunch DecodePlan DecodeBuild
      withDecodeBuild withDecodePlan].
  all: destruct (decodeOptional (DecodeLaunch w _) _); [done|].
  all: by destruct (decide _).
Qed.

(** ** What a build calls *)

Section calls.
Variable w : World.

(** The calls of [Build] from an empty log, with the command it runs. *)
Lemma Build_calls b plan config :
  let r := Build w b plan config [] in
  let prep := [EvMkdirAll (bpLayersDirOf w b config);
               EvMkdirAll (bpPlanDirOf w b config);
               EvWriteTOML (bpPlanPathOf w b config) (adaptPlan b plan)] in
  (∃ e, fst r = inl e ∧ snd r `prefix_of` prep)
  ∨ (∃ env envs,
       snd r = prep ++ [EvRun (buildCmd b (bpLayersDirOf w b config)
                                 (bpPlanPathOf w b config) config env)]
                    ++ envs
       ∧ Forall is_env envs
       ∧ (if Info_ClearEnv (Buildpack_ b) then env = Env_List w
          else Env_WithPlatform w (PlatformDir config) = inr env)
       ∧ (envs = []
          ∨ Cmd_Run w (buildCmd b (bpLayersDirOf w b config)
                         (bpPlanPathOf w b config) config env) = None)).
Proof.
  intros r prep. subst r. unfold Build.
  destruct (preparePaths_log w b (adaptPlan b plan) config [])
    as [(msg & Hm & H)|[(msg & Hm1 & Hm2 & H)
       |(Hm1 & Hm2 & res & H & [->|[msg ->]])]];
    simpl in H.
  - rewrite (bind_err _ _ _ _ _ H). left. eexists. split; [done|].
    by exists (tail prep).
  - rewrite (bind_err _ _ _ _ _ H). left. eexists. split; [done|].
    by exists [EvWriteTOML (bpPlanPathOf w b config) (adaptPlan b plan)].
  - rewrite (bind_ok _ _ _ _ _ H). cbn [fst snd]. fold prep.
    unfold runBuildCmd. unfold bind at 2.
    assert (∀ env,
      (∃ e,
         (bind
            (bind (emit (EvRun (buildCmd b (bpLayersDirOf w b config)
                                  (bpPlanPathOf w b config) config env)))
               (λ _, match Cmd_Run w (buildCmd b (bpLayersDirOf w b config)
                                       (bpPlanPathOf w b config) config env)
                     with
                     | Some err => fail (NewLifecycleError err ErrTypeBuildpack)
                     | None => ret ()
                     end))
            (λ _, bind (setupEnv w (bpLayersDirOf w b config))
                    (λ _, lift (readOutputFiles w b (bpLayersDirOf w b config)
                                  (bpPlanPathOf w b config)
                                  (adaptPlan b plan)))) prep).2
         = prep ++ [EvRun (buildCmd b (bpLayersDirOf w b config)
                             (bpPlanPathOf w b config) config env)] ++ e
         ∧ Forall is_env e
         ∧ (e = [] ∨ Cmd_Run w (buildCmd b (bpLayersDirOf w b config)
                                  (bpPlanPathOf w b config) config env)
                     = None))) as Hrun.
    { intros env. unfold bind at 1 2, emit.
      destruct (Cmd_Run w _) as [err|] eqn:Hc; simpl.
      { exists []. by eauto. }
      destruct (setupEnv_log w (bpLayersDirOf w b config)
                  (prep ++ [EvRun (buildCmd b (bpLayersDirOf w b config)
                                     (bpPlanPathOf w b config) config env)]))
        as (r & envs & Hs & Henvs & _).
      exists envs. rewrite <- app_assoc in Hs.
      destruct r as [e|[]].
      - rewrite (bind_err _ _ _ _ _ Hs). eauto.
      - rewrite (bind_ok _ _ _ _ _ Hs). unfold lift.
        destruct (readOutputFiles _ _ _ _ _); simpl; eauto. }
    destruct (Info_ClearEnv (Buildpack_ b)) eqn:Hclear.
    + right. destruct (Hrun (Env_List w)) as (envs & Hlog & Henvs & Hc).
      exists (Env_List w), envs. unfold ret at 1. eauto.
    + destruct (Env_WithPlatform w (PlatformDir config)) as [msg|env] eqn:Hp.
      * left. unfold fail at 1. simpl. eexists. split; [done|]. by exists [].
      * right. destruct (Hrun env) as (envs & Hlog & Henvs & Hc).
        exists env, envs. unfold ret at 1. eauto.
  - rewrite (bind_err _ _ _ _ _ H). left. eexists. split; [done|]. by exists [].
Qed.

Lemma not_in_prep ev (log prep : list Event) :
  log `prefix_of` prep → ev ∈ log → ev ∈ prep.
Proof. intros [rest ->] Hin. apply elem_of_app. by left. Qed.

End calls.



(** The [BuildEnv] is changed only after a child that succeeded: a build
    whose child fails, or that does not get to run one, makes no
    [AddRootDir] or [AddEnvDir] call. *)
Theorem env_changes_only_after_child_success (w : World)
    (b : DefaultBuildpackTOML) (plan : BuildpackPlan) (config : BuildConfig)
    (call : EnvCall) :
  EvEnv call ∈ snd (Build w b plan config []) →
  ∃ cmd, EvRun cmd ∈ snd (Build w b plan config [])
         ∧ Cmd_Run w cmd = None.
Proof.
  intros Hin.
  destruct (Build_calls w b plan config)
    as [(e & _ & Hpre)|(env & envs & Hlog & Henvs & _ & [->|Hrun])].
  - apply (not_in_prep _ _ _ Hpre) in Hin.
    rewrite !elem_of_cons, elem_of_nil in Hin.
    by destruct Hin as [?|[?|[?|[]]]].
  - rewrite Hlog, !elem_of_app, !elem_of_cons, !elem_of_nil in Hin.
    by destruct Hin as [[?|[?|[?|[]]]]|[[?|[]]|[]]].
  - eexists. split; [|exact Hrun]. rewrite Hlog, !elem_of_app.
    right; left. apply list_elem_of_here.
Qed.

Lemma env_changes_only_after_child_success_witness :
  ∃ cmd, EvRun cmd ∈ snd (Build scenarios.layersWorld
                            (scenarios.bpTOML api_0_5) {| Entries := [] |}
                            scenarios.config [])
         ∧ Cmd_Run scenarios.layersWorld cmd = None.
Proof.
  apply (env_changes_only_after_child_success scenarios.layersWorld
           (scenarios.bpTOML api_0_5) {| Entries := [] |} scenarios.config
           (AddRootDir "launch/A/layer1")).
  vm_compute. do 4 apply list_elem_of_further. apply list_elem_of_here.
Defined.

(** When a directory cannot be made, the plan cannot be written or the
    child's environment cannot be had, [Build] fails with that error and
    neither runs the child nor changes the [BuildEnv]. *)
Theorem nothing_runs_when_preparation_fails (w : World)
    (b : DefaultBuildpackTOML) (plan : BuildpackPlan) (config : BuildConfig)
    (msg : string) :
  MkdirAll w (bpLayersDirOf w b config) = Some msg
  ∨ (MkdirAll w (bpLayersDirOf w b config) = None
     ∧ (MkdirAll w (bpPlanDirOf w b config) = Some msg
        ∨ (MkdirAll w (bpPlanDirOf w b config) = None
           ∧ (WriteTOML w (bpPlanPathOf w b config) (adaptPlan b plan)
              = Some msg
              ∨ (WriteTOML w (bpPlanPathOf w b config) (adaptPlan b plan)
                 = None
                 ∧ Info_ClearEnv (Buildpack_ b) = false
                 ∧ Env_WithPlatform w (PlatformDir config) = inl msg))))) →
  fst (Build w b plan config []) = inl (ExternalError msg)
  ∧ Forall (λ ev, not_run ev ∧ ¬ is_env ev) (snd (Build w b plan config [])).
Proof.
  unfold Build, preparePaths, runBuildCmd, bind, emit, check, ret, fail.
  fold (bpLayersDirOf w b config) (bpPlanDirOf w b config).
  fold (bpPlanPathOf w b config). cbn [fst snd app].
  intros [H1|[H1 [H2|[H2 [H3|(H3 & Hc & Hp)]]]]].
  all: rewrite ?H1, ?H2, ?H3, ?Hc, ?Hp; simpl; split; [done|].
  all: repeat (constructor; [split; [exact I | by intros []]|]).
  all: constructor.
Qed.

Lemma nothing_runs_when_preparation_fails_witness :
  fst (Build scenarios.noPlatformWorld (scenarios.bpTOML api_0_5)
         {| Entries := [] |} scenarios.config [])
  = inl (ExternalError "some error").
Proof.
  apply (nothing_runs_when_preparation_fails scenarios.noPlatformWorld
           (scenarios.bpTOML api_0_5) {| Entries := [] |} scenarios.config).
  right. split; [reflexivity|]. right. split; [reflexivity|].
  right. split; [reflexivity|]. split; reflexivity.
Defined.



(** ** The build layers *)

Section build_layers.
Variable w : World.

(** The calls made by a sequence of [BuildEnv] calls: all of them when
    it succeeds, else those up to the one that failed. *)
Lemma runCalls_log calls log :
  ∃ r made, runCalls w calls log = (r, log ++ map EvEnv made)
            ∧ made `prefix_of` calls
            ∧ (r = inr tt → made = calls).
Proof.
  revert log. induction calls as [|c calls IH]; intros log; simpl.
  - exists (inr tt), []. rewrite app_nil_r. done.
  - unfold bind.
    destruct (env_call_log w c log) as (r0 & -> & _).
    destruct r0 as [e|[]].
    + exists (inl e), [c]. split; [done|].
      split; [by exists calls | done].
    + destruct (IH (log ++ [EvEnv c])) as (r & made & -> & Hpre & Hall).
      exists r, (c :: made). rewrite <- app_assoc. split; [done|].
      split; [by apply prefix_cons | by intros ->%Hall].
Qed.

Lemma buildDirs_elem_of dir files d :
  d ∈ buildDirs w dir files →
  ∃ f, f ∈ files ∧ FileInfo_IsDir f = true
       ∧ DecodeLayer w (filepath_Join [dir; FileInfo_Name f] +:+ ".toml")
         = Decoded true
       ∧ d = filepath_Join [dir; FileInfo_Name f].
Proof.
  unfold buildDirs, buildLayers.
  intros (f & -> & Hf)%list_elem_of_fmap.
  apply list_elem_of_In, filter_In in Hf as [Hf Hb].
  apply andb_prop in Hb as [Hdir Hbuild]. unfold isBuild in Hbuild.
  exists f. rewrite list_elem_of_In. repeat split; try done.
  by destruct (DecodeLayer w _) as [[]| |].
Qed.

End build_layers.

(** [setupEnv] calls the [BuildEnv] only for entries of the layers
    directory that are directories and whose sibling [.toml] decodes with
    [build = true]: [AddRootDir] on the directory, [AddEnvDir] on its
    [env] and [env.build]. Files, and layers of which the [.toml] is
    missing, broken or without [build], get no call. *)
Theorem setupEnv_calls_build_layers_only (w : World) (layersDir : string)
    (entries : list FileInfo) (call : EnvCall) :
  Listing w layersDir = DirEntries entries →
  EvEnv call ∈ snd (setupEnv w layersDir []) →
  ∃ f, f ∈ entries ∧ FileInfo_IsDir f = true
       ∧ DecodeLayer w (filepath_Join [layersDir; FileInfo_Name f]
                        +:+ ".toml") = Decoded true
       ∧ let dir := filepath_Join [layersDir; FileInfo_Name f] in
         call = AddRootDir dir
         ∨ call = AddEnvDir (filepath_Join [dir; "env"])
         ∨ call = AddEnvDir (filepath_Join [dir; "env.build"]).
Proof.
  intros Hlisting.
  assert (∃ files, ioutil_ReadDir w layersDir = DirEntries files
                   ∧ files ≡ₚ entries) as (files & Hdir & Hperm).
  { unfold ioutil_ReadDir. rewrite Hlisting. eexists. split; [done|].
    apply merge_sort_Permutation. }
  unfold setupEnv, eachDir. rewrite Hdir. unfold bind.
  rewrite eachDir_loop_roots.
  destruct (runCalls_log w (map AddRootDir (buildDirs w layersDir files)) [])
    as (r & made & -> & Hmade & _).
  assert (∀ c, c ∈ made → ∃ d, d ∈ buildDirs w layersDir files
                               ∧ c = AddRootDir d) as Hroots.
  { intros c Hc. destruct Hmade as [rest Hmade].
    assert (c ∈ map AddRootDir (buildDirs w layersDir files)) as Hin
      by (rewrite Hmade; apply elem_of_app; by left).
    apply list_elem_of_fmap in Hin as (d & -> & Hd). eauto. }
  assert (∀ c, (∃ d, d ∈ buildDirs w layersDir files
                     ∧ (c = AddRootDir d
                        ∨ c = AddEnvDir (filepath_Join [d; "env"])
                        ∨ c = AddEnvDir (filepath_Join [d; "env.build"]))) →
               ∃ f, f ∈ entries ∧ FileInfo_IsDir f = true
                    ∧ DecodeLayer w (filepath_Join [layersDir; FileInfo_Name f]
                                     +:+ ".toml") = Decoded true
                    ∧ let dir := filepath_Join [layersDir; FileInfo_Name f] in
                      c = AddRootDir dir
                      ∨ c = AddEnvDir (filepath_Join [dir; "env"])
                      ∨ c = AddEnvDir (filepath_Join [dir; "env.build"]))
    as Hlayer.
  { intros c (d & Hd & Hc).
    apply buildDirs_elem_of in Hd as (f & Hf & Hisdir & Hbuild & ->).
    exists f. split; [|done]. by rewrite <- Hperm. }
  destruct r as [e|[]]; simpl.
  - intros (c & [= ->] & Hc)%list_elem_of_fmap. apply Hlayer.
    destruct (Hroots c Hc) as (d & Hd & ->). eauto.
  - rewrite eachDir_loop_envs.
    destruct (runCalls_log w
                (flat_map envDirCalls (buildDirs w layersDir files))
                (map EvEnv made)) as (r & made' & -> & Hmade' & _).
    simpl. rewrite elem_of_app.
    intros [(c & [= ->] & Hc)%list_elem_of_fmap
           |(c & [= ->] & Hc)%list_elem_of_fmap]; apply Hlayer.
    + destruct (Hroots c Hc) as (d & Hd & ->). eauto.
    + destruct Hmade' as [rest Hmade'].
      assert (c ∈ flat_map envDirCalls (buildDirs w layersDir files)) as Hin
        by (rewrite Hmade'; apply elem_of_app; by left).
      apply list_elem_of_In, in_flat_map in Hin as (d & Hd & Hin).
      exists d. rewrite list_elem_of_In. split; [done|].
      destruct Hin as [<-|[<-|[]]]; eauto.
Qed.

Lemma setupEnv_calls_build_layers_only_witness :
  ∃ f, f ∈ scenarios.layers ∧ FileInfo_IsDir f = true
       ∧ DecodeLayer scenarios.layersWorld
           (filepath_Join ["launch/A"; FileInfo_Name f] +:+ ".toml")
         = Decoded true
       ∧ let dir := filepath_Join ["launch/A"; FileInfo_Name f] in
         AddEnvDir "launch/A/layer3/env" = AddRootDir dir
         ∨ AddEnvDir "launch/A/layer3/env"
           = AddEnvDir (filepath_Join [dir; "env"])
         ∨ AddEnvDir "launch/A/layer3/env"
           = AddEnvDir (filepath_Join [dir; "env.build"]).
Proof.
  apply (setupEnv_calls_build_layers_only scenarios.layersWorld "launch/A"
           scenarios.layers (AddEnvDir "launch/A/layer3/env") eq_refl).
  vm_compute. do 4 apply list_elem_of_further. apply list_elem_of_here.
Defined.

(** [setupEnv] calls [AddEnvDir] only once [AddRootDir] has been called,
    with success, on every build layer: when an [AddRootDir] call fails,
    no environment directory is applied. *)
Theorem setupEnv_adds_root_dirs_first (w : World) (layersDir : string)
    (files : list FileInfo) (path : string) :
  ioutil_ReadDir w layersDir = DirEntries files →
  EvEnv (AddEnvDir path) ∈ snd (setupEnv w layersDir []) →
  ∃ rest,
    snd (setupEnv w layersDir [])
    = map EvEnv (map AddRootDir (buildDirs w layersDir files)) ++ rest
    ∧ fst (runCalls w (map AddRootDir (buildDirs w layersDir files)) [])
      = inr tt.
Proof.
  intros Hdir. unfold setupEnv, eachDir. rewrite Hdir. unfold bind.
  rewrite eachDir_loop_roots.
  destruct (runCalls_log w (map AddRootDir (buildDirs w layersDir files)) [])
    as (r & made & Hrun & Hmade & Hall).
  rewrite Hrun. destruct r as [e|[]]; simpl.
  - intros (c & [= <-] & Hc)%list_elem_of_fmap. exfalso.
    destruct Hmade as [rest Hmade].
    assert (AddEnvDir path ∈ map AddRootDir (buildDirs w layersDir files))
      as Hin by (rewrite Hmade; apply elem_of_app; by left).
    by apply list_elem_of_fmap in Hin as (d & [=] & _).
  - intros _. rewrite (Hall eq_refl). rewrite eachDir_loop_envs.
    destruct (runCalls_log w
                (flat_map envDirCalls (buildDirs w layersDir files))
                (map EvEnv (map AddRootDir (buildDirs w layersDir files))))
      as (r & made' & -> & _ & _).
    simpl. eauto.
Qed.

Lemma setupEnv_adds_root_dirs_first_witness :
  ∃ rest,
    snd (setupEnv scenarios.layersWorld "launch/A" [])
    = [EvEnv (AddRootDir "launch/A/layer1");
       EvEnv (AddRootDir "launch/A/layer3")] ++ rest.
Proof.
  destruct (setupEnv_adds_root_dirs_first scenarios.layersWorld "launch/A"
              (merge_sort name_le scenarios.layers) "launch/A/layer1/env"
              eq_refl) as (rest & Hlog & _).
  - vm_compute. do 2 apply list_elem_of_further. apply list_elem_of_here.
  - exists rest. exact Hlog.
Defined.

End LifecycleMore.

(** * Further properties of the run images *)

Module PlatformMore.
Import platform PlatformFacts.

(** An image that [BestRunImageMirrorFor] selects is one of the
    candidates, and the read-access probe accepts it. *)
Theorem best_mirror_is_readable {Keychain : Type}
    (DefaultKeychain : list string → string + Keychain)
    (RegistryStr : string → option string)
    (targetRegistry : string) (runImageMD : RunImageForExport)
    (checkReadAccess : string → Keychain → bool) (image : string) :
  BestRunImageMirrorFor DefaultKeychain RegistryStr targetRegistry
    runImageMD checkReadAccess = Selected image →
  image ∈ Image runImageMD :: Mirrors runImageMD
  ∧ ∃ keychain,
      DefaultKeychain (Image runImageMD :: Mirrors runImageMD) = inr keychain
      ∧ checkReadAccess image keychain = true.
Proof.
  unfold BestRunImageMirrorFor. destruct (decide _); [done|].
  change ([Image runImageMD] ++ Mirrors runImageMD)
    with (Image runImageMD :: Mirrors runImageMD).
  set (candidates := Image runImageMD :: Mirrors runImageMD).
  destruct (DefaultKeychain candidates) as [err|keychain]; [done|].
  rewrite byRegistry_find, firstAccessible_find.
  assert (∀ c, List.find (λ c, checkReadAccess c keychain) candidates
               = Some c →
               c ∈ candidates
               ∧ ∃ keychain0, inr (A := string) keychain = inr keychain0
                              ∧ checkReadAccess c keychain0 = true)
    as Hfallback.
  { intros c [Hin Hc]%find_some. split; [by apply list_elem_of_In|eauto]. }
  destruct (List.find (onRegistry _ _ _ _) candidates) as [c|] eqn:Hfind;
    cbn [default from_option id].
  - destruct (decide (c ≠ "")).
    + intros ?; simplify_eq. apply find_some in Hfind as [Hin Hc].
      apply andb_prop in Hc as [_ Hc].
      split; [by apply list_elem_of_In|eauto].
    + destruct (List.find (λ c, checkReadAccess c keychain) candidates)
        eqn:Hacc; [|done].
      intros ?; simplify_eq. by apply Hfallback.
  - destruct (decide _); [done|].
    destruct (List.find (λ c, checkReadAccess c keychain) candidates)
      eqn:Hacc; [|done].
    intros ?; simplify_eq. by apply Hfallback.
Qed.

Lemma best_mirror_is_readable_witness :
  "r.example/run" ∈ ["other.example/run"; "r.example/run"]
  ∧ ∃ keychain,
      scenarios.anyKeychain ["other.example/run"; "r.example/run"]
      = inr keychain
      ∧ scenarios.readable ["other.example/run"; "r.example/run"]
          "r.example/run" keychain = true.
Proof.
  apply (best_mirror_is_readable scenarios.anyKeychain scenarios.registryOf
           "r.example" scenarios.runImage
           (scenarios.readable ["other.example/run"; "r.example/run"])).
  vm_compute. reflexivity.
Defined.

(** [BestRunImageMirrorFor] selects an image exactly when the run image
    is set, a keychain can be made and the probe accepts one of the
    candidates. *)
Theorem best_mirror_found_iff {Keychain : Type}
    (DefaultKeychain : list string → string + Keychain)
    (RegistryStr : string → option string)
    (targetRegistry : string) (runImageMD : RunImageForExport)
    (checkReadAccess : string → Keychain → bool) :
  (∃ image, BestRunImageMirrorFor DefaultKeychain RegistryStr
              targetRegistry runImageMD checkReadAccess = Selected image)
  ↔ Image runImageMD ≠ ""
    ∧ ∃ keychain candidate,
        DefaultKeychain (Image runImageMD :: Mirrors runImageMD)
        = inr keychain
        ∧ candidate ∈ Image runImageMD :: Mirrors runImageMD
        ∧ checkReadAccess candidate keychain = true.
Proof.
  unfold BestRunImageMirrorFor.
  change ([Image runImageMD] ++ Mirrors runImageMD)
    with (Image runImageMD :: Mirrors runImageMD).
  destruct (decide (Image runImageMD = "")) as [He|Hne].
  { split; [by intros [? ?] | by intros [? _]]. }
  destruct (DefaultKeychain _) as [err|keychain].
  { split; [by intros [? ?] | by intros (_ & ? & ? & ? & _)]. }
  rewrite byRegistry_find, firstAccessible_find.
  destruct (List.find (λ c, checkReadAccess c keychain) _) as [c|] eqn:Hfind.
  - split.
    + intros _. split; [done|]. apply find_some in Hfind as [Hin Hc].
      exists keychain, c. by rewrite list_elem_of_In.
    + intros _. destruct (decide _); eauto.
  - assert (List.find (onRegistry RegistryStr checkReadAccess keychain
                         targetRegistry)
                      (Image runImageMD :: Mirrors runImageMD) = None) as ->.
    { destruct (List.find (onRegistry _ _ _ _) _) as [c|] eqn:Hreg; [|done].
      apply find_some in Hreg as [Hin Hc].
      apply andb_prop in Hc as [_ Hc].
      by rewrite (find_none _ _ Hfind c Hin) in Hc. }
    simpl. split; [by intros [? ?]|].
    intros (_ & k & c & [= <-] & Hin & Hc).
    apply list_elem_of_In in Hin.
    by rewrite (find_none _ _ Hfind c Hin) in Hc.
Qed.

(** The failures of [BestRunImageMirrorFor] are three: no run image in
    the metadata, whatever its mirrors; no keychain, with the cause in
    the message; or no candidate that the probe accepts. *)
Theorem best_mirror_failures {Keychain : Type}
    (DefaultKeychain : list string → string + Keychain)
    (RegistryStr : string → option string)
    (targetRegistry : string) (runImageMD : RunImageForExport)
    (checkReadAccess : string → Keychain → bool) (msg : string) :
  BestRunImageMirrorFor DefaultKeychain RegistryStr targetRegistry
    runImageMD checkReadAccess = Failed msg →
  (Image runImageMD = "" ∧ msg = "missing run image metadata")
  ∨ (Image runImageMD ≠ ""
     ∧ ∃ err, DefaultKeychain (Image runImageMD :: Mirrors runImageMD)
              = inl err
              ∧ msg = "unable to create keychain: " +:+ err)
  ∨ (Image runImageMD ≠ ""
     ∧ ∃ keychain,
         DefaultKeychain (Image runImageMD :: Mirrors runImageMD)
         = inr keychain
         ∧ msg = "failed to find accessible run image"
         ∧ ∀ candidate,
             candidate ∈ Image runImageMD :: Mirrors runImageMD →
             checkReadAccess candidate keychain = false).
Proof.
  unfold BestRunImageMirrorFor.
  change ([Image runImageMD] ++ Mirrors runImageMD)
    with (Image runImageMD :: Mirrors runImageMD).
  destruct (decide (Image runImageMD = "")) as [He|Hne].
  { intros [= <-]. by left. }
  destruct (DefaultKeychain _) as [err|keychain].
  { intros [= <-]. right; left. eauto. }
  rewrite firstAccessible_find. destruct (decide _); [done|].
  destruct (List.find _ _) eqn:Hfind; [done|]. intros [= <-].
  right; right. split; [done|]. exists keychain. repeat split.
  intros c Hin%list_elem_of_In. by apply (find_none _ _ Hfind).
Qed.

Lemma best_mirror_failures_witness :
  scenarios.readable [] "r.example/run" tt = false.
Proof.
  destruct (best_mirror_failures scenarios.anyKeychain scenarios.registryOf
              "r.example" scenarios.runImage (scenarios.readable [])
              "failed to find accessible run image")
    as [[He _]|[(_ & err & He & _)|(_ & [] & _ & _ & Hnone)]].
  - vm_compute. reflexivity.
  - vm_compute in He. discriminate He.
  - vm_compute in He. discriminate He.
  - apply Hnone. apply list_elem_of_further, list_elem_of_here.
Defined.

Section export.
Context {Extension : Type}.
Variable ParseMaybe : string → string.

Lemma mirrorIs_offers mirrors inputRef :
  mirrorIs ParseMaybe mirrors inputRef = true
  ↔ ∃ mirror, mirror ∈ mirrors ∧ ParseMaybe mirror = inputRef.
Proof.
  induction mirrors as [|m mirrors IH]; simpl.
  - split; [done|]. by intros (? & ?%elem_of_nil & _).
  - destruct (decide (ParseMaybe m = inputRef)) as [Hm|Hm].
    + split; [|done]. intros _. exists m. split; [by left|done].
    + rewrite IH. split.
      * intros (m' & Hin & Heq). exists m'. split; [by right|done].
      * intros (m' & [->|Hin]%elem_of_cons & Heq); [done|eauto].
Qed.

Lemma runImageFor_Some images inputRef runImage :
  runImageFor ParseMaybe images inputRef = Some runImage
  ↔ ∃ before after,
      images = before ++ runImage :: after
      ∧ Forall (λ r, ¬ offers ParseMaybe inputRef r) before
      ∧ offers ParseMaybe inputRef runImage.
Proof.
  revert runImage. induction images as [|r images IH]; intros runImage; simpl.
  - split; [done|]. intros (before & after & Heq & _). by destruct before.
  - assert (offers ParseMaybe inputRef r
            ↔ ParseMaybe (Image r) = inputRef
              ∨ mirrorIs ParseMaybe (Mirrors r) inputRef = true) as Hoffers
      by (unfold offers; by rewrite mirrorIs_offers).
    destruct (decide (ParseMaybe (Image r) = inputRef)) as [Hi|Hi];
      [|destruct (mirrorIs ParseMaybe (Mirrors r) inputRef) eqn:Hm].
    1,2: split;
      [ intros [= <-]; exists [], images;
        split; [done|]; split; [constructor|]; apply Hoffers; auto
      | intros ([|r' before] & after & Heq & Hnone & Hr); simplify_eq/=;
        [done|]; apply Forall_cons in Hnone as [Hnot _];
        exfalso; apply Hnot, Hoffers; auto ].
    rewrite IH. split.
    + intros (before & after & -> & Hnone & Hr).
      exists (r :: before), after. split; [done|]. split; [|done].
      constructor; [|done]. rewrite Hoffers. intros [?|?]; congruence.
    + intros ([|r' before] & after & Heq & Hnone & Hr); simplify_eq/=.
      * exfalso. apply Hoffers in Hr as [?|?]; congruence.
      * apply Forall_cons in Hnone as [_ Hnone]. eauto.
Qed.

Lemma runImageFor_None images inputRef :
  runImageFor ParseMaybe images inputRef = None
  ↔ Forall (λ r, ¬ offers ParseMaybe inputRef r) images.
Proof.
  induction images as [|r images IH]; simpl.
  - split; [constructor | done].
  - rewrite Forall_cons. unfold offers at 1. rewrite <- mirrorIs_offers.
    destruct (decide (ParseMaybe (Image r) = inputRef)) as [Hi|Hi].
    { split; [done|]. intros [Hnot _]. exfalso. apply Hnot. by left. }
    destruct (mirrorIs ParseMaybe (Mirrors r) inputRef).
    { split; [done|]. intros [Hnot _]. exfalso. apply Hnot. by right. }
    rewrite IH. split; [|by intros [_ ?]].
    intros ?. split; [|done]. by intros [?|?].
Qed.

End export.

(** From platform API 0.12 on, [GetRunImageForExport] returns the first
    run image of [run.toml] that is the input reference or has it among
    its mirrors, whenever there is one; the build metadata is then not
    looked at. *)
Theorem run_image_for_export_is_first_offer {Extension : Type}
    (ParseMaybe : string → string)
    (ReadStack : string → string + RunImageForExport)
    (ReadRun : string → string + list RunImageForExport)
    (DecodeBuildMetadata :
       string → lifecycle.APIVersion → string + list Extension)
    (GetMetadataFilePath : string → string)
    (inputs : LifecycleInputs)
    (before after : list RunImageForExport) (runImage : RunImageForExport) :
  ¬ (lifecycle.api_Compare (PlatformAPI inputs) api_0_12 < 0)%Z →
  ReadRun (RunPath inputs) = inr (before ++ runImage :: after) →
  Forall (λ r, ¬ offers ParseMaybe (ParseMaybe (RunImageRef inputs)) r)
         before →
  offers ParseMaybe (ParseMaybe (RunImageRef inputs)) runImage →
  GetRunImageForExport ParseMaybe ReadStack ReadRun DecodeBuildMetadata
    GetMetadataFilePath inputs = inr runImage.
Proof.
  intros Hapi Hrun Hbefore Hoffers. unfold GetRunImageForExport.
  rewrite decide_False by done. rewrite Hrun.
  rewrite decide_False by (rewrite length_app; simpl; lia).
  assert (runImageFor ParseMaybe (before ++ runImage :: after)
            (ParseMaybe (RunImageRef inputs)) = Some runImage) as ->; [|done].
  apply runImageFor_Some. eauto.
Qed.

Lemma run_image_for_export_is_first_offer_witness :
  GetRunImageForExport (Extension := string) (λ ref, ref)
    (λ _, inl "no stack.toml") (λ _, inr scenarios.runImages)
    (λ _ _, inl "no metadata.toml") (λ dir, dir)
    (scenarios.exportInputs "r.example/run")
  = inr {| Image := "gcr.io/cnb/run"; Mirrors := ["r.example/run"] |}.
Proof.
  apply (run_image_for_export_is_first_offer (Extension := string)
           (λ ref, ref) (λ _, inl "no stack.toml")
           (λ _, inr scenarios.runImages) (λ _ _, inl "no metadata.toml")
           (λ dir, dir) (scenarios.exportInputs "r.example/run")
           [ {| Image := "index.docker.io/cnb/run"; Mirrors := [] |} ] []).
  - vm_compute. discriminate.
  - reflexivity.
  - constructor; [|constructor]. intros [H|(m & Hm & _)]; [discriminate H|].
    by apply elem_of_nil in Hm.
  - right. exists "r.example/run". split; [apply list_elem_of_here|done].
Defined.

(** From platform API 0.12 on, when [run.toml] has run images and none of
    them is, or mirrors, the input reference, [GetRunImageForExport]
    turns to the build metadata: its decoding error is returned; with
    extensions the result is the input reference alone, without mirrors;
    without extensions it is the first run image of [run.toml]. *)
Theorem run_image_for_export_without_offer {Extension : Type}
    (ParseMaybe : string → string)
    (ReadStack : string → string + RunImageForExport)
    (ReadRun : string → string + list RunImageForExport)
    (DecodeBuildMetadata :
       string → lifecycle.APIVersion → string + list Extension)
    (GetMetadataFilePath : string → string)
    (inputs : LifecycleInputs)
    (first : RunImageForExport) (others : list RunImageForExport) :
  ¬ (lifecycle.api_Compare (PlatformAPI inputs) api_0_12 < 0)%Z →
  ReadRun (RunPath inputs) = inr (first :: others) →
  Forall (λ r, ¬ offers ParseMaybe (ParseMaybe (RunImageRef inputs)) r)
         (first :: others) →
  GetRunImageForExport ParseMaybe ReadStack ReadRun DecodeBuildMetadata
    GetMetadataFilePath inputs
  = match DecodeBuildMetadata (GetMetadataFilePath (LayersDir inputs))
            (PlatformAPI inputs) with
    | inl err => inl err
    | inr [] => inr first
    | inr (_ :: _) => inr {| Image := RunImageRef inputs; Mirrors := [] |}
    end.
Proof.
  intros Hapi Hrun Hnone. unfold GetRunImageForExport.
  rewrite decide_False by done. rewrite Hrun.
  rewrite decide_False by done.
  apply runImageFor_None in Hnone. rewrite Hnone.
  by destruct (DecodeBuildMetadata _ _) as [err|[|ext exts]].
Qed.

Lemma run_image_for_export_without_offer_witness :
  GetRunImageForExport (λ ref, ref)
    (λ _, inl "no stack.toml") (λ _, inr scenarios.runImages)
    (λ _ _, inr ["some-extension"]) (λ dir, dir)
    (scenarios.exportInputs "other.example/run")
  = inr {| Image := "other.example/run"; Mirrors := [] |}.
Proof.
  apply (run_image_for_export_without_offer (λ ref, ref)
           (λ _, inl "no stack.toml") (λ _, inr scenarios.runImages)
           (λ _ _, inr ["some-extension"]) (λ dir, dir)
           (scenarios.exportInputs "other.example/run")
           {| Image := "index.docker.io/cnb/run"; Mirrors := [] |}
           [ {| Image := "gcr.io/cnb/run"; Mirrors := ["r.example/run"] |} ]).
  - vm_compute. discriminate.
  - reflexivity.
  - apply (runImageFor_None (λ ref, ref)). vm_compute. reflexivity.
Defined.

(** From platform API 0.12 on, a run image that [GetRunImageForExport]
    returns is the empty one when [run.toml] has no run image, or one of
    the run images of [run.toml], or, only when none of them offers the
    input reference and the build has extensions, the input reference
    alone. Below 0.12 it is the run image of [stack.toml], and [run.toml]
    is not read. *)
Theorem run_image_for_export_origin {Extension : Type}
    (ParseMaybe : string → string)
    (ReadStack : string → string + RunImageForExport)
    (ReadRun : string → string + list RunImageForExport)
    (DecodeBuildMetadata :
       string → lifecycle.APIVersion → string + list Extension)
    (GetMetadataFilePath : string → string)
    (inputs : LifecycleInputs) (runImage : RunImageForExport) :
  GetRunImageForExport ParseMaybe ReadStack ReadRun DecodeBuildMetadata
    GetMetadataFilePath inputs = inr runImage →
  if decide (lifecycle.api_Compare (PlatformAPI inputs) api_0_12 < 0)%Z then
    ReadStack (StackPath inputs) = inr runImage
  else
    ∃ images,
      ReadRun (RunPath inputs) = inr images
      ∧ ((images = [] ∧ runImage = zeroRunImage)
         ∨ runImage ∈ images
         ∨ (runImage = {| Image := RunImageRef inputs; Mirrors := [] |}
            ∧ Forall (λ r, ¬ offers ParseMaybe
                               (ParseMaybe (RunImageRef inputs)) r) images
            ∧ ∃ extension extensions,
                DecodeBuildMetadata (GetMetadataFilePath (LayersDir inputs))
                  (PlatformAPI inputs) = inr (extension :: extensions))).
Proof.
  unfold GetRunImageForExport. destruct (decide _) as [Hlt|Hge].
  { destruct (ReadStack _); [done|]. by intros [= <-]. }
  destruct (ReadRun _) as [err|images]; [done|].
  intros H. exists images. split; [done|].
  destruct (decide (length images = 0)) as [Hlen|Hlen].
  { left. simplify_eq. by destruct images. }
  destruct (runImageFor ParseMaybe images _) as [r|] eqn:Hfor.
  { simplify_eq. right; left.
    apply runImageFor_Some in Hfor as (before & after & -> & _).
    apply elem_of_app. right. by left. }
  apply runImageFor_None in Hfor.
  destruct (DecodeBuildMetadata _ _) as [err|[|ext exts]]; simplify_eq/=.
  - right; left. destruct images; simplify_eq/=. by left.
  - right; right. eauto.
Qed.

Lemma run_image_for_export_origin_witness :
  ∃ images,
    inr scenarios.runImages = inr (A := string) images
    ∧ ((images = []
        ∧ {| Image := "index.docker.io/cnb/run"; Mirrors := [] |}
          = zeroRunImage)
       ∨ {| Image := "index.docker.io/cnb/run"; Mirrors := [] |} ∈ images
       ∨ ({| Image := "index.docker.io/cnb/run"; Mirrors := [] |}
          = {| Image := "other.example/run"; Mirrors := [] |}
          ∧ Forall (λ r, ¬ offers (λ ref, ref) "other.example/run" r) images
          ∧ ∃ extension extensions,
              inr (A := string) (@nil string)
              = inr (extension :: extensions))).
Proof.
  exact (run_image_for_export_origin (λ ref, ref)
           (λ _, inl "no stack.toml") (λ _, inr scenarios.runImages)
           (λ _ _, inr []) (λ dir, dir)
           (scenarios.exportInputs "other.example/run")
           {| Image := "index.docker.io/cnb/run"; Mirrors := [] |} eq_refl).
Defined.

End PlatformMore.

(** * Further properties of the build environment *)

Module EnvMore.
Import env EnvFacts.

(** [isNotAllowlisted] lets a name through exactly when it is, letter for
    letter, one of the three names of the allowlist or one of the five
    variables of the root-dir map. *)
Theorem isNotAllowlisted_false_iff (k : string) :
  isNotAllowlisted k = false ↔ k ∈ allowed_names.
Proof.
  rewrite isNotAllowlisted_allowed_names. rewrite negb_false_iff.
  apply bool_decide_eq_true.
Qed.

(** Every variable that the root-dir map of a new build environment
    gives to a directory is let through by the allowlist: what
    [AddRootDir] extends is never dropped from the caller's variables. *)
Theorem root_dir_variables_are_allowed (environ : list string)
    (dir : string) (vars : list string) (var : string) :
  RootDirMap (NewBuildEnv environ) !! dir = Some vars →
  var ∈ vars →
  isNotAllowlisted var = false.
Proof.
  cbn [NewBuildEnv RootDirMap]. intros Hdir Hvar.
  unfold isNotAllowlisted. destruct (listed BuildEnvAllowlist var); [done|].
  assert (listed_in_any (map_to_list POSIXBuildEnv) var = true) as ->;
    [|done].
  apply elem_of_map_to_list in Hdir. revert Hdir.
  generalize (map_to_list POSIXBuildEnv). intros dirs Hdir.
  induction dirs as [|[d wks] dirs IH]; [by apply elem_of_nil in Hdir|].
  simpl. apply elem_of_cons in Hdir as [[= <- <-]|Hdir].
  - rewrite listed_elem_of. by rewrite bool_decide_eq_true_2.
  - destruct (listed wks var); [done | by apply IH].
Qed.

Lemma root_dir_variables_are_allowed_witness :
  isNotAllowlisted "LIBRARY_PATH" = false.
Proof.
  apply (root_dir_variables_are_allowed [] "lib"
           ["LD_LIBRARY_PATH"; "LIBRARY_PATH"] "LIBRARY_PATH").
  - vm_compute. reflexivity.
  - apply list_elem_of_further, list_elem_of_here.
Defined.

End EnvMore.

(** * Properties of the registry handler *)

Module ImageFacts.
Import image.

Lemma prefix_of_append (reg rest : string) :
  String.prefix reg (reg +:+ rest) = true.
Proof.
  induction reg as [|c reg IH]; simpl.
  - by destruct rest.
  - destruct (Ascii.ascii_dec c c); [exact IH | congruence].
Qed.


(** A reference that begins with the text of an insecure registry gets
    its option, whatever follows that text. *)
Theorem insecure_option_for_every_extension
    (insecureRegistries : list string) (reg rest : string) :
  reg ∈ insecureRegistries →
  WithRegistrySetting reg true
  ∈ GetInsecureOptions insecureRegistries (reg +:+ rest).
Proof.
  intros Hin. unfold GetInsecureOptions.
  rewrite decide_True
    by (destruct insecureRegistries; [by apply elem_of_nil in Hin|simpl; lia]).
  induction insecureRegistries as [|r regs IH];
    [by apply elem_of_nil in Hin|].
  simpl. apply elem_of_cons in Hin as [<-|Hin].
  - rewrite prefix_of_append. by left.
  - destruct (String.prefix r _); [right|]; by apply IH.
Qed.

Lemma insecure_option_for_every_extension_witness :
  WithRegistrySetting "localhost:5000" true
  ∈ GetInsecureOptions ["registry.example"; "localhost:5000"]
      "localhost:50001/cnb/app".
Proof.
  apply (insecure_option_for_every_extension
           ["registry.example"; "localhost:5000"] "localhost:5000"
           "1/cnb/app").
  apply list_elem_of_further, list_elem_of_here.
Defined.

Section handler.
Context {Keychain : Type}.
Variable CheckReadAccess : string → Keychain → list ImageOption → bool.
Variable CheckReadWriteAccess :
  string → Keychain → list ImageOption → bool.

Lemma verifyReadAccess_None rv imageRef :
  verifyReadAccess CheckReadAccess imageRef (keychain rv)
    (GetInsecureOptions (insecureRegistry rv) imageRef) = None
  ↔ readable CheckReadAccess rv imageRef.
Proof.
  unfold verifyReadAccess, readable.
  destruct (decide (imageRef = "")); [by split; [left|]|].
  destruct (CheckReadAccess _ _ _); simpl.
  - by split; [right|].
  - split; [done | by intros [?|?]].
Qed.

Lemma verifyReadWriteAccess_None rv imageRef :
  verifyReadWriteAccess CheckReadWriteAccess imageRef (keychain rv)
    (GetInsecureOptions (insecureRegistry rv) imageRef) = None
  ↔ writable CheckReadWriteAccess rv imageRef.
Proof.
  unfold verifyReadWriteAccess, writable.
  destruct (decide (imageRef = "")); [by split; [left|]|].
  destruct (CheckReadWriteAccess _ _ _); simpl.
  - by split; [right|].
  - split; [done | by intros [?|?]].
Qed.

End handler.

(** [EnsureReadAccess] returns no error exactly when the probe accepts
    every reference that is not empty, an empty reference being passed
    without a probe; else its error names the first reference that the
    probe refuses. *)
Theorem EnsureReadAccess_accepts_iff {Keychain : Type}
    (CheckReadAccess : string → Keychain → list ImageOption → bool)
    (rv : DefaultRegistryHandler) (imageRefs : list string) :
  (EnsureReadAccess CheckReadAccess rv imageRefs = None
   ↔ Forall (readable CheckReadAccess rv) imageRefs)
  ∧ (∀ ok imageRef rest,
       imageRefs = ok ++ imageRef :: rest →
       Forall (readable CheckReadAccess rv) ok →
       ¬ readable CheckReadAccess rv imageRef →
       EnsureReadAccess CheckReadAccess rv imageRefs
       = Some ("ensure registry read access to " +:+ imageRef)).
Proof.
  split.
  - induction imageRefs as [|imageRef refs IH]; simpl.
    + split; [constructor|done].
    + rewrite Forall_cons, <- IH, <- verifyReadAccess_None.
      destruct (verifyReadAccess _ _ _ _); [|tauto].
      split; [done | by intros [? _]].
  - intros ok imageRef rest -> Hok Hbad.
    induction Hok as [|r ok Hr Hok IH]; simpl.
    + destruct (verifyReadAccess _ _ _ _) as [err|] eqn:Hv.
      * unfold verifyReadAccess in Hv.
        destruct (decide _); [done|]. by destruct (CheckReadAccess _ _ _).
      * by apply verifyReadAccess_None in Hv.
    + apply verifyReadAccess_None in Hr. by rewrite Hr.
Qed.

Lemma EnsureReadAccess_accepts_iff_witness :
  EnsureReadAccess scenarios.insecureOnly scenarios.handler
    [""; "localhost:5000/cnb/app"; "docker.io/cnb/app"; "gcr.io/cnb/app"]
  = Some "ensure registry read access to docker.io/cnb/app".
Proof.
  apply (proj2 (EnsureReadAccess_accepts_iff scenarios.insecureOnly
                  scenarios.handler
                  [""; "localhost:5000/cnb/app"; "docker.io/cnb/app";
                   "gcr.io/cnb/app"])
           [""; "localhost:5000/cnb/app"] "docker.io/cnb/app"
           ["gcr.io/cnb/app"] eq_refl).
  - constructor; [by left|]. constructor; [|constructor].
    right. vm_compute. reflexivity.
  - intros [H|H]; [discriminate H|]. vm_compute in H. discriminate H.
Defined.

(** [EnsureWriteAccess] returns no error exactly when the read/write
    probe accepts every reference that is not empty; else its error names
    the first reference that the probe refuses. *)
Theorem EnsureWriteAccess_accepts_iff {Keychain : Type}
    (CheckReadWriteAccess : string → Keychain → list ImageOption → bool)
    (rv : DefaultRegistryHandler) (imageRefs : list string) :
  (EnsureWriteAccess CheckReadWriteAccess rv imageRefs = None
   ↔ Forall (writable CheckReadWriteAccess rv) imageRefs)
  ∧ (∀ ok imageRef rest,
       imageRefs = ok ++ imageRef :: rest →
       Forall (writable CheckReadWriteAccess rv) ok →
       ¬ writable CheckReadWriteAccess rv imageRef →
       EnsureWriteAccess CheckReadWriteAccess rv imageRefs
       = Some ("ensure registry read/write access to " +:+ imageRef)).
Proof.
  split.
  - induction imageRefs as [|imageRef refs IH]; simpl.
    + split; [constructor|done].
    + rewrite Forall_cons, <- IH, <- verifyReadWriteAccess_None.
      destruct (verifyReadWriteAccess _ _ _ _); [|tauto].
      split; [done | by intros [? _]].
  - intros ok imageRef rest -> Hok Hbad.
    induction Hok as [|r ok Hr Hok IH]; simpl.
    + destruct (verifyReadWriteAccess _ _ _ _) as [err|] eqn:Hv.
      * unfold verifyReadWriteAccess in Hv.
        destruct (decide _); [done|].
        by destruct (CheckReadWriteAccess _ _ _).
      * by apply verifyReadWriteAccess_None in Hv.
    + apply verifyReadWriteAccess_None in Hr. by rewrite Hr.
Qed.

Lemma EnsureWriteAccess_accepts_iff_witness :
  EnsureWriteAccess scenarios.insecureOnly scenarios.handler
    ["localhost:5000/cnb/app"; "docker.io/cnb/app"]
  = Some "ensure registry read/write access to docker.io/cnb/app".
Proof.
  apply (proj2 (EnsureWriteAccess_accepts_iff scenarios.insecureOnly
                  scenarios.handler
                  ["localhost:5000/cnb/app"; "docker.io/cnb/app"])
           ["localhost:5000/cnb/app"] "docker.io/cnb/app" [] eq_refl).
  - constructor; [|constructor]. right. vm_compute. reflexivity.
  - intros [H|H]; [discriminate H|]. vm_compute in H. discriminate H.
Defined.

End ImageFacts.

(** * Properties of the rebase command *)

Module RebaseFacts.
Import rebase.

(** When [Args] returns no error there was an argument, the destination
    tags are valid and at most one of the two run-image flags was given;
    the command then holds the arguments as image names, the run image
    of whichever flag was given, and the default report path in place of
    the placeholder; nothing else is changed. *)
Theorem Args_accepts
    (ValidateDestinationTags : bool → list string → option string)
    (PlaceholderReportPath : string)
    (DefaultReportPath : string → string → string)
    (r r' : rebaseCmd) (nargs : Z) (args : list string) :
  Args ValidateDestinationTags PlaceholderReportPath DefaultReportPath
    r nargs args = (None, r') →
  nargs ≠ 0%Z
  ∧ ValidateDestinationTags (useDaemon r) args = None
  ∧ (deprecatedRunImageRef r = "" ∨ runImageRef r = "")
  ∧ r' = {| imageNames := args;
            reportPath :=
              if decide (reportPath r = PlaceholderReportPath)
              then DefaultReportPath (platformAPI r) ""
              else reportPath r;
            runImageRef :=
              if decide (deprecatedRunImageRef r = "") then runImageRef r
              else deprecatedRunImageRef r;
            deprecatedRunImageRef := deprecatedRunImageRef r;
            platformAPI := platformAPI r; useDaemon := useDaemon r;
            uid := uid r; gid := gid r |}.
Proof.
  unfold Args. destruct (decide (nargs = 0)%Z); [done|].
  cbn [setImageNames useDaemon imageNames deprecatedRunImageRef runImageRef].
  destruct (ValidateDestinationTags _ _); [done|].
  destruct (decide (deprecatedRunImageRef r ≠ "")) as [Hd|Hd];
    destruct (decide (runImageRef r = "")) as [Hr|Hr];
    repeat case_bool_decide; try done; cbn [andb];
    cbn [setImageNames setRunImageRef reportPath platformAPI
         deprecatedRunImageRef];
    intros [= <-].
  - split; [done|]. split; [done|]. split; [by right|].
    rewrite (decide_False (P := deprecatedRunImageRef r = "")) by done.
    by destruct (decide (reportPath r = PlaceholderReportPath)).
  - assert (deprecatedRunImageRef r = "") as Hd'
      by (by destruct (decide (deprecatedRunImageRef r = ""))).
    split; [done|]. split; [done|]. split; [by left|].
    rewrite (decide_True (P := deprecatedRunImageRef r = "")) by done.
    by destruct (decide (reportPath r = PlaceholderReportPath)).
  - assert (deprecatedRunImageRef r = "") as Hd'
      by (by destruct (decide (deprecatedRunImageRef r = ""))).
    split; [done|]. split; [done|]. split; [by left|].
    rewrite (decide_True (P := deprecatedRunImageRef r = "")) by done.
    by destruct (decide (reportPath r = PlaceholderReportPath)).
Qed.

Lemma Args_accepts_witness :
  ∃ r',
    Args (λ _ _, None) "<layers>/report.toml" (λ _ _, "/layers/report.toml")
      scenarios.rebaseFlags 2 ["cnb/app"; "cnb/app:latest"] = (None, r')
    ∧ runImageRef r' = "cnb/run"
    ∧ reportPath r' = "/layers/report.toml"
    ∧ imageNames r' = ["cnb/app"; "cnb/app:latest"].
Proof.
  eexists. split; [vm_compute; reflexivity|].
  match goal with
  | |- runImageRef ?R = _ ∧ _ =>
      destruct (Args_accepts (λ _ _, None) "<layers>/report.toml"
                  (λ _ _, "/layers/report.toml") scenarios.rebaseFlags R 2
                  ["cnb/app"; "cnb/app:latest"]) as (_ & _ & _ & Hr)
  end.
  - vm_compute. reflexivity.
  - rewrite Hr. vm_compute. by repeat split.
Defined.

(** Every error of [Args] has the code of invalid arguments and leaves
    the run-image flags and the report path as they were; without
    arguments the command is left untouched. *)
Theorem Args_rejects
    (ValidateDestinationTags : bool → list string → option string)
    (PlaceholderReportPath : string)
    (DefaultReportPath : string → string → string)
    (r r' : rebaseCmd) (nargs : Z) (args : list string) (e : ErrorFail) :
  Args ValidateDestinationTags PlaceholderReportPath DefaultReportPath
    r nargs args = (Some e, r') →
  Fail_Code e = CodeInvalidArgs
  ∧ runImageRef r' = runImageRef r
  ∧ deprecatedRunImageRef r' = deprecatedRunImageRef r
  ∧ reportPath r' = reportPath r
  ∧ (nargs = 0%Z → r' = r)
  ∧ (nargs ≠ 0%Z → imageNames r' = args).
Proof.
  unfold Args. destruct (decide (nargs = 0)%Z).
  { intros [= <- <-]. by repeat split. }
  destruct (ValidateDestinationTags _ _).
  { intros [= <- <-]. by repeat split. }
  destruct (_ && _); [|done].
  intros [= <- <-]. by repeat split.
Qed.

Lemma Args_rejects_witness :
  Fail_Code (FailErrCode "at least one image argument is required"
               CodeInvalidArgs "parse arguments") = CodeInvalidArgs
  ∧ runImageRef scenarios.rebaseFlags = runImageRef scenarios.rebaseFlags.
Proof.
  destruct (Args_rejects (λ _ _, None) "<layers>/report.toml"
              (λ _ _, "/layers/report.toml") scenarios.rebaseFlags
              scenarios.rebaseFlags 0 []
              (FailErrCode "at least one image argument is required"
                 CodeInvalidArgs "parse arguments") eq_refl)
    as (Hcode & Hrun & _).
  by split.
Defined.

End RebaseFacts.

